(** * CodexIntern internship projects: the chat assistant and the
      speech-to-image pipeline

    A shallow embedding of [gemini.py] (keyword classifier, search fetcher,
    prompt composition, chat call) and of [img_gen.py] (key masking, audio
    validation, transcription, image generation, command-line driver),
    followed by the properties of the two scripts.

    Conventions.
    - A Python [str] is the [string] of its UTF-8 bytes.  White space is
      recognised over the whole of Unicode, one, two or three bytes at a
      time; letter case is changed on ASCII letters, and the bytes of other
      characters are carried along unchanged.  Lengths and indices count
      bytes, which are the characters of ASCII text.
    - A raised exception is a value of [exc]: its class and the text that
      [str(e)] gives.  Only subclasses of [Exception] are modelled, so
      [except Exception] catches every [exc].
    - A dict is a [gmap]; an absent key is [None].
    - The replies of the remote providers are read at the types at which
      the scripts use them (a title is a string, an output entry is a URL
      or null). *)

From Stdlib Require Import ZArith Ascii String DecimalString.
From stdpp Require Import base option list strings gmap.

Local Open Scope Z_scope.

(* ===================================================================== *)
(** * Python values shared by both scripts *)
(* ===================================================================== *)

Module Py.

(** ** Exceptions *)

Inductive exc_class :=
  | Exception_          (* a plain [Exception(...)] *)
  | ValueError
  | KeyError
  | IndexError
  | TypeError
  | AttributeError
  | FileNotFoundError
  | OSError             (* other I/O errors *)
  | RequestException.   (* [requests.RequestException] and its subclasses *)

Record exc := Exc { exc_class_of : exc_class; exc_str : string }.

Definition isinstance_RequestException (e : exc) : bool :=
  match exc_class_of e with RequestException => true | _ => false end.

(** A computation that returns or raises. *)
Definition result (A : Type) : Type := exc + A.
Abbreviation Ok := inr (only parsing).
Abbreviation Raise := inl (only parsing).

(** ** Effects: a state threaded through calls that may raise

    [M S A] is a call that starts in a state of type [S], ends in another
    and either returns an [A] or raises.  A raise keeps the effects made so
    far, as in Python. *)

Definition M (S A : Type) : Type := S -> result A * S.

Section monad.
Context {S : Type}.

Definition ret {A} (x : A) : M S A := fun s => (Ok x, s).

Definition raise {A} (e : exc) : M S A := fun s => (Raise e, s).

Definition bind {A B} (m : M S A) (k : A -> M S B) : M S B :=
  fun s =>
    match m s with
    | (inl e, s') => (inl e, s')
    | (inr x, s') => k x s'
    end.

(** A pure step that may raise. *)
Definition lift {A} (r : result A) : M S A := fun s => (r, s).

(** [try: m except Exception as e: h e] *)
Definition try_except {A} (m : M S A) (h : exc -> M S A) : M S A :=
  fun s =>
    match m s with
    | (inl e, s') => h e s'
    | (inr x, s') => (Ok x, s')
    end.

(** [try: m except C as e: h e] for the class test [is_C]; any other
    exception goes on to the caller. *)
Definition try_except_class {A} (is_C : exc -> bool)
    (m : M S A) (h : exc -> M S A) : M S A :=
  fun s =>
    match m s with
    | (inl e, s') => if is_C e then h e s' else (Raise e, s')
    | (inr x, s') => (Ok x, s')
    end.
End monad.

#[global] Instance M_ret {S} : MRet (M S) := @ret S.
#[global] Instance M_bind {S} : MBind (M S) := fun A B k m => bind m k.

(** [str(n)] for an [int] *)
Definition str_of_int (n : Z) : string := NilZero.string_of_int (Z.to_int n).

(** ** Strings *)

Definition nl : string := String "010"%char "".

(** [c.lower()] on one character: ['A'..'Z'] move to ['a'..'z']. *)
Definition lower_char (c : ascii) : ascii :=
  let n := N_of_ascii c in
  if ((65 <=? n) && (n <=? 90))%N then ascii_of_N (n + 32) else c.

(** [s.lower()] *)
Fixpoint lower (s : string) : string :=
  match s with
  | "" => ""
  | String c s' => String (lower_char c) (lower s')
  end.

(** [s.startswith(p)] *)
Fixpoint startswith (p s : string) : bool :=
  match p, s with
  | "", _ => true
  | String _ _, "" => false
  | String a p', String b s' => bool_decide (a = b) && startswith p' s'
  end.

(** [needle in hay] for two strings *)
Fixpoint contains (needle hay : string) : bool :=
  startswith needle hay ||
  match hay with
  | "" => false
  | String _ hay' => contains needle hay'
  end.

(** [sep.join(parts)] *)
Fixpoint join (sep : string) (parts : list string) : string :=
  match parts with
  | [] => ""
  | [p] => p
  | p :: rest => p +:+ sep +:+ join sep rest
  end.

(** [c * n] for a one-character string [c] and an [int] [n]; a count that
    is zero or negative gives the empty string. *)
Definition repeat_char (c : ascii) (n : Z) : string :=
  Nat.iter (Z.to_nat n) (String c) "".

(** [len(s)] *)
Definition len (s : string) : Z := Z.of_nat (String.length s).

(** [s[:n]] for [n >= 0] *)
Fixpoint take_str (n : nat) (s : string) : string :=
  match n, s with
  | S n', String c s' => String c (take_str n' s')
  | _, _ => ""
  end.

(** [s[n:]] for [n >= 0] *)
Fixpoint drop_str (n : nat) (s : string) : string :=
  match n, s with
  | S n', String _ s' => drop_str n' s'
  | _, _ => s
  end.

(** [s[-n:]] for [n > 0]: the start index [len(s) - n] is clamped at 0. *)
Definition last_str (n : nat) (s : string) : string :=
  drop_str (String.length s - n) s.

(** White space as [str.strip()] sees it, by the UTF-8 bytes of each
    character.

    A one-byte white-space character: tab, line feed, vertical tab, form
    feed, carriage return, the four separators 0x1c..0x1f and the space. *)
Definition isspace (c : ascii) : bool :=
  let n := N_of_ascii c in
  (((9 <=? n) && (n <=? 13)) || ((28 <=? n) && (n <=? 32)))%N.

(** A two-byte white-space character: U+0085 and U+00A0. *)
Definition isspace2 (a b : ascii) : bool :=
  let x := N_of_ascii a in
  let y := N_of_ascii b in
  ((x =? 194) && ((y =? 133) || (y =? 160)))%N.

(** A three-byte white-space character: U+1680, U+2000..U+200A, U+2028,
    U+2029, U+202F, U+205F and U+3000. *)
Definition isspace3 (a b c : ascii) : bool :=
  let x := N_of_ascii a in
  let y := N_of_ascii b in
  let z := N_of_ascii c in
  (((x =? 225) && (y =? 154) && (z =? 128))
   || ((x =? 226) && (y =? 128)
       && (((128 <=? z) && (z <=? 138)) || (z =? 168) || (z =? 169) || (z =? 175)))
   || ((x =? 226) && (y =? 129) && (z =? 159))
   || ((x =? 227) && (y =? 128) && (z =? 128)))%N.

(** [s.lstrip()] *)
Fixpoint lstrip (s : string) : string :=
  match s with
  | "" => ""
  | String a s1 =>
      if isspace a then lstrip s1 else
      match s1 with
      | "" => s
      | String b s2 =>
          if isspace2 a b then lstrip s2 else
          match s2 with
          | "" => s
          | String c s3 => if isspace3 a b c then lstrip s3 else s
          end
      end
  end.

(** [s] is made of white-space characters only. *)
Fixpoint all_space (s : string) : bool :=
  match s with
  | "" => true
  | String a s1 =>
      if isspace a then all_space s1 else
      match s1 with
      | "" => false
      | String b s2 =>
          if isspace2 a b then all_space s2 else
          match s2 with
          | "" => false
          | String c s3 => isspace3 a b c && all_space s3
          end
      end
  end.

(** [s.rstrip()]: the text is cut at the first place from which only
    white space follows. *)
Fixpoint rstrip (s : string) : string :=
  match s with
  | "" => ""
  | String c s' => if all_space s then "" else String c (rstrip s')
  end.

(** [s.strip()] *)
Definition strip (s : string) : string := rstrip (lstrip s).

(** Truth value of a string: [not s] holds for the empty string only. *)
Definition falsy (s : string) : bool := bool_decide (s = "").

(** The substring relation that [contains] decides. *)
Definition substring_of (k s : string) : Prop :=
  exists pre post : string, s = pre +:+ k +:+ post.

(** [s] is one white-space character. *)
Definition space_char (s : string) : bool :=
  match s with
  | String a "" => isspace a
  | String a (String b "") => isspace2 a b
  | String a (String b (String c "")) => isspace3 a b c
  | _ => false
  end.

(** [s] begins with a white-space character. *)
Definition starts_with_space (s : string) : bool :=
  match s with
  | "" => false
  | String a s1 =>
      isspace a ||
      match s1 with
      | "" => false
      | String b s2 =>
          isspace2 a b ||
          match s2 with
          | "" => false
          | String c _ => isspace3 a b c
          end
      end
  end.

(** [s] ends with a white-space character. *)
Fixpoint ends_with_space (s : string) : bool :=
  match s with
  | "" => false
  | String _ s' => space_char s || ends_with_space s'
  end.

(** The no-break space U+00A0, a white-space character outside ASCII. *)
Definition nbsp : string := String "194" (String "160" "").

(** [s] neither begins nor ends with a white-space character. *)
Definition trimmed (s : string) : Prop :=
  starts_with_space s = false /\ ends_with_space s = false.

(** [s] is [t] with its leading and trailing white space removed. *)
Definition stripped_of (t s : string) : Prop :=
  trimmed s /\
  exists leading trailing,
    all_space leading = true /\ all_space trailing = true /\
    t = leading +:+ s +:+ trailing.

End Py.

Import Py.

(* ===================================================================== *)
(** * gemini.py: the chat assistant with real-time search *)
(* ===================================================================== *)

Module Gemini.

(** ** The world outside the script *)

(** [env.py] is not among the sources; the constants imported from it are
    taken as they come. *)
Record Env := {
  GEMINI_API_KEY : string;
  GOOGLE_SEARCH_API_KEY : string;
  SEARCH_ENGINE_ID : string
}.

(** The JSON body of a search reply: the value under ["items"], if the key
    is there; each item is a dict from field names to strings. *)
Record search_data := { items : option (list (gmap string string)) }.

(** What [requests.get] hands back. [http_error_text] is the text of the
    [HTTPError] that [raise_for_status] raises for this reply; [json] is the
    outcome of [response.json()]. *)
Record response := {
  status_code : Z;
  http_error_text : string;
  json : result search_data
}.

(** One turn of the remote conversation: the prompt and the reply. *)
Definition turn : Type := string * string.

Record World := {
  env : Env;
  (** the search provider: a reply, or the exception [requests.get] raises *)
  web : string -> result response;
  (** the chat provider: the reply text for a prompt after a history, or
      the exception that [send_message] or [response.text] raises *)
  gemini : list turn -> string -> result string
}.

(** Outbound calls, in the order they are made. *)
Inductive event :=
  | SearchGet (url : string)
  | ChatSend (prompt : string).

(** The chat session's history and the log of outbound calls. *)
Record State := {
  history : list turn;
  trace : list event
}.

Definition log (ev : event) (s : State) : State :=
  {| history := history s; trace := trace s ++ [ev] |}.

(** ** Library calls *)

(** [requests.get(url)] *)
Definition requests_get (w : World) (url : string) : M State response :=
  fun s => (web w url, log (SearchGet url) s).

(** [response.raise_for_status()]: an [HTTPError] for a 4xx or 5xx status. *)
Definition raise_for_status (r : response) : M State unit :=
  if (400 <=? status_code r) && (status_code r <? 600)
  then raise (Exc RequestException (http_error_text r))
  else mret tt.

(** [chat_session.send_message(prompt)] followed by [response.text]: the
    call is made; on success the session records the exchange. *)
Definition send_message (w : World) (prompt : string) : M State string :=
  fun s =>
    let r := gemini w (history s) prompt in
    let s1 := log (ChatSend prompt) s in
    match r with
    | inl e => (Raise e, s1)
    | inr reply =>
        (Ok reply,
         {| history := history s1 ++ [(prompt, reply)]; trace := trace s1 |})
    end.

(** [item[key]] on a dict: [KeyError(key)] when absent; its text is the
    quoted key. *)
Definition getitem (item : gmap string string) (key : string) : M State string :=
  match item !! key with
  | Some v => mret v
  | None => raise (Exc KeyError ("'" +:+ key +:+ "'"))
  end.

(** ** The script *)

Definition REAL_TIME_KEYWORDS : list string :=
  ["current"; "price"; "weather"; "today"; "now"; "live"].

Definition is_real_time_query (user_input : string) : bool :=
  existsb (fun keyword => contains keyword (lower user_input))
          REAL_TIME_KEYWORDS.

(** [f"- {item['title']}: {item['snippet']}"] *)
Definition format_item (item : gmap string string) : M State string :=
  title ← getitem item "title";
  snippet ← getitem item "snippet";
  mret ("- " +:+ title +:+ ": " +:+ snippet).

(** The list comprehension over [results[:3]], left to right. *)
Fixpoint format_items (results : list (gmap string string)) : M State (list string) :=
  match results with
  | [] => mret []
  | item :: rest =>
      line ← format_item item;
      lines ← format_items rest;
      mret (line :: lines)
  end.

Definition search_url (e : Env) (query : string) : string :=
  "https://www.googleapis.com/customsearch/v1?key=" +:+ GOOGLE_SEARCH_API_KEY e
  +:+ "&cx=" +:+ SEARCH_ENGINE_ID e +:+ "&q=" +:+ query +:+ "&num=3".

Definition fetch_search_results (w : World) (query : string) : M State string :=
  let url := search_url (env w) query in
  try_except_class isinstance_RequestException
    (response ← requests_get w url;
     raise_for_status response;;
     data ← lift (json response);
     let results := default [] (items data) in
     match results with
     | [] => mret "No relevant search results found."
     | _ :: _ =>
         lines ← format_items (take 3 results);
         let summary := join nl lines in
         mret ("Real-time data from search:" +:+ nl +:+ summary)
     end)
    (fun e => raise (Exc Exception_ ("Error fetching search results: " +:+ exc_str e))).

(** Lines 71 to 78 of [generate_response]: the prompt that will be sent. *)
Definition compose_prompt (w : World) (user_input : string) : M State string :=
  if is_real_time_query user_input then
    try_except
      (search_data ← fetch_search_results w user_input;
       mret (user_input +:+ nl +:+ nl +:+ search_data))
      (fun e =>
         mret (user_input +:+ nl +:+ nl
               +:+ "Note: Could not fetch real-time data due to error: "
               +:+ exc_str e))
  else mret user_input.

(** Lines 80 to 84 of [generate_response]: the chat call. *)
Definition send_prompt (w : World) (prompt : string) : M State string :=
  try_except
    (send_message w prompt)
    (fun e => raise (Exc Exception_ ("Error generating response with Gemini: " +:+ exc_str e))).

Definition generate_response (w : World) (user_input : string) : M State string :=
  prompt ← compose_prompt w user_input;
  send_prompt w prompt.

(** ** Vocabulary for the properties *)

(** The search call for [query] succeeds with the JSON body [data]: a reply
    arrives, its status is not an error status, and its body decodes. *)
Definition search_succeeds (w : World) (query : string) (data : search_data) : Prop :=
  exists r,
    web w (search_url (env w) query) = Ok r /\
    ((400 <=? status_code r) && (status_code r <? 600)) = false /\
    json r = Ok data.

(** The item carries the title and the snippet of the pair. *)
Definition has_title_snippet (item : gmap string string) (p : string * string) : Prop :=
  item !! "title" = Some p.1 /\ item !! "snippet" = Some p.2.

(** The line ["- {title}: {snippet}"] of a (title, snippet) pair. *)
Definition result_line (p : string * string) : string :=
  "- " +:+ p.1 +:+ ": " +:+ p.2.

(** The note that stands in for the search data after a failed fetch. *)
Definition error_note (e : exc) : string :=
  "Note: Could not fetch real-time data due to error: " +:+ exc_str e.

(** ** Sample worlds *)

Definition sample_env : Env :=
  {| GEMINI_API_KEY := "g-key"; GOOGLE_SEARCH_API_KEY := "s-key";
     SEARCH_ENGINE_ID := "cx-1" |}.

(** A chat provider that answers every prompt. *)
Definition echo_world (search : string -> result response) : World :=
  {| env := sample_env; web := search;
     gemini := fun _ prompt => Ok ("Reply to: " +:+ prompt) |}.

Definition reply_200 (data : search_data) : response :=
  {| status_code := 200; http_error_text := ""; json := Ok data |}.

(** The search provider cannot be reached. *)
Definition world_down : World :=
  echo_world (fun _ => Raise (Exc RequestException "connection refused")).

(** The search provider answers with the given items. *)
Definition world_items (l : list (gmap string string)) : World :=
  echo_world (fun _ => Ok (reply_200 {| items := Some l |})).

(** The search provider answers without an ["items"] key. *)
Definition world_no_items : World :=
  echo_world (fun _ => Ok (reply_200 {| items := None |})).

Definition mk_item (title snippet : string) : gmap string string :=
  {[ "title" := title; "snippet" := snippet ]}.

Definition item_without_snippet : gmap string string :=
  {[ "title" := "Forecast" ]}.

Definition fresh : State := {| history := []; trace := [] |}.

(** ** The interactive driver *)

(** How [main] ends: [break] after the exit word, or [input] raising
    [EOFError] outside any handler when standard input is exhausted. *)
Inductive ending :=
  | Goodbye
  | EndOfInput.

(** [user_input.lower() == "exit"] for a line as [input] returns it, after
    [strip]. *)
Definition is_exit (line : string) : bool :=
  bool_decide (lower (strip line) = "exit").

(** The [try] statement of the loop body: the line that is printed for one
    message, and the state after the turn. *)
Definition answer (w : World) (user_input : string) (s : State) : string * State :=
  match generate_response w user_input s with
  | (inr response, s') => ("Assistant: " +:+ response, s')
  | (inl e, s') => ("Error: " +:+ exc_str e +:+ ". Please try again.", s')
  end.

(** The [while True] loop over the lines that standard input still holds.
    [out] is what has been written to standard output so far, one entry per
    [print] and per [input] prompt. *)
Fixpoint chat_loop (w : World) (stdin : list string) (s : State)
    (out : list string) : ending * State * list string :=
  match stdin with
  | [] => (EndOfInput, s, out ++ ["You: "])
  | line :: rest =>
      let user_input := strip line in
      if bool_decide (lower user_input = "exit")
      then (Goodbye, s, out ++ ["You: "; "Goodbye!"])
      else
        let (printed, s') := answer w user_input s in
        chat_loop w rest s' (out ++ ["You: "; printed])
  end.

(** [main]: the banner, a new chat session, the loop. *)
Definition main (w : World) (stdin : list string) : ending * State * list string :=
  chat_loop w stdin {| history := []; trace := [] |}
    ["Intelligent Chatbot with Gemini and Real-Time Search";
     "Type 'exit' to quit."].

(** A world whose chat provider refuses every prompt. *)
Definition world_chat_down : World :=
  {| env := sample_env;
     web := fun _ => Raise (Exc RequestException "connection refused");
     gemini := fun _ _ => Raise (Exc ValueError "quota exceeded") |}.

(** The number of chat calls in a log of outbound calls. *)
Fixpoint chat_calls (t : list event) : nat :=
  match t with
  | [] => 0
  | ChatSend _ :: t' => S (chat_calls t')
  | SearchGet _ :: t' => chat_calls t'
  end.

End Gemini.

(* ===================================================================== *)
(** * img_gen.py: the speech-to-image pipeline *)
(* ===================================================================== *)

Module ImgGen.

(** ** The world outside the script *)

(** A node of the file system.  [NonRegular] is a directory or any other
    node that is not a regular file.  A regular file has its bytes and, when
    it cannot be opened for reading or read, the error that [open] or [read]
    raises. *)
Inductive fnode :=
  | NonRegular
  | Regular (content : string) (io_error : option exc).

(** A JSON value as the script reads it out of a reply. *)
Inductive jval :=
  | JNull
  | JStr (s : string)
  | JArr (l : list (option string)).   (* entries: a string or null *)

Record response := {
  status_code : Z;
  text : string;                       (* [response.text] *)
  json : result (gmap string jval);    (* [response.json()] *)
  content : string                     (* [response.content] *)
}.

(** Outbound calls. *)
Inductive request :=
  | PostFiles (url : string) (headers : list (string * string))
              (files : list (string * string)) (data : list (string * string))
  | PostJson (url : string) (headers : list (string * string))
             (model prompt : string) (width height steps : Z) (seed : option Z)
  | Get (url : string).

(** What the process cannot change: its environment variables, the
    providers' answers (a reply, or the exception [requests] raises), and
    what the operating system says to opening a path for writing: [None]
    when it lets the file be created or truncated, or the error that [open]
    raises (a missing directory, no permission). *)
Record World := {
  environ : gmap string string;
  server : request -> result response;
  open_wb_error : string -> option exc
}.

(** What the process changes: files, the two output streams (one entry per
    [print]) and the log of outbound calls. *)
Record State := {
  fs : gmap string fnode;
  stdout : list string;
  stderr : list string;
  net : list request
}.

(** Parsed command-line arguments ([argparse] has accepted them). *)
Record Args := {
  audio : string;
  out : string;
  api_key : option string;
  dry_run : bool
}.

(** ** Library calls *)

(** [print(line)] *)
Definition print (line : string) : M State unit :=
  fun s =>
    (Ok tt, {| fs := fs s; stdout := stdout s ++ [line];
               stderr := stderr s; net := net s |}).

(** [print(line, file=sys.stderr)] *)
Definition eprint (line : string) (s : State) : State :=
  {| fs := fs s; stdout := stdout s; stderr := stderr s ++ [line]; net := net s |}.

(** [os.path.exists(path)] *)
Definition os_path_exists (path : string) : M State bool :=
  fun s => (Ok (bool_decide (is_Some (fs s !! path))), s).

(** [os.path.isfile(path)] *)
Definition os_path_isfile (path : string) : M State bool :=
  fun s =>
    (Ok match fs s !! path with Some (Regular _ _) => true | _ => false end, s).

(** [open(path, "rb")] and reading from the handle: the bytes of the file. *)
Definition open_rb (path : string) : M State string :=
  fun s =>
    match fs s !! path with
    | None =>
        (Raise (Exc FileNotFoundError
                  ("[Errno 2] No such file or directory: '" +:+ path +:+ "'")), s)
    | Some NonRegular =>
        (Raise (Exc OSError ("[Errno 21] Is a directory: '" +:+ path +:+ "'")), s)
    | Some (Regular _ (Some e)) => (Raise e, s)
    | Some (Regular bytes None) => (Ok bytes, s)
    end.

(** [open(path, "wb")] and [f.write(bytes)]: a path that holds a
    directory, or that the operating system does not let be opened for
    writing, raises and nothing is written; otherwise the file is created
    or replaced. *)
Definition write_wb (w : World) (path bytes : string) : M State unit :=
  fun s =>
    match fs s !! path with
    | Some NonRegular =>
        (Raise (Exc OSError ("[Errno 21] Is a directory: '" +:+ path +:+ "'")), s)
    | _ =>
        match open_wb_error w path with
        | Some e => (Raise e, s)
        | None =>
            (Ok tt, {| fs := <[path := Regular bytes None]> (fs s);
                       stdout := stdout s; stderr := stderr s; net := net s |})
        end
    end.

(** A call of [requests.post] or [requests.get]: logged, then answered. *)
Definition send (w : World) (r : request) : M State response :=
  fun s =>
    (server w r, {| fs := fs s; stdout := stdout s; stderr := stderr s;
                    net := net s ++ [r] |}).

(** [os.getenv(name)] *)
Definition os_getenv (w : World) (name : string) : option string :=
  environ w !! name.

(** Truth value of a value that is [None] or a string. *)
Definition truthy (v : option string) : bool :=
  match v with
  | Some s => negb (falsy s)
  | None => false
  end.

(** [a or b] *)
Definition py_or (a b : option string) : option string :=
  if truthy a then a else b.

(** ** The script *)

Definition MONSTER_API_BASE : string := "https://api.monsterapi.ai/v1/generate".
Definition WHISPER_MODEL : string := "whisper-large-v3".
Definition SDXL_MODEL : string := "sdxl".
Definition DEFAULT_OUT : string := "output.png".

Definition get_api_key (w : World) (args : Args) : M State string :=
  let key := py_or (api_key args) (os_getenv w "MONSTER_API_KEY") in
  match key with
  | Some k =>
      if falsy k
      then raise (Exc ValueError "MonsterAPI key not provided. Use --api_key or set MONSTER_API_KEY env var.")
      else mret k
  | None =>
      raise (Exc ValueError "MonsterAPI key not provided. Use --api_key or set MONSTER_API_KEY env var.")
  end.

Definition mask_key (key : string) : string :=
  if 8 <? len key
  then take_str 4 key +:+ repeat_char "*" (len key - 8) +:+ last_str 4 key
  else repeat_char "*" (len key).

Definition validate_audio (input_path : string) : M State unit :=
  found ← os_path_exists input_path;
  if negb found then
    raise (Exc FileNotFoundError ("Audio file not found: " +:+ input_path))
  else
  isfile ← os_path_isfile input_path;
  if negb isfile then
    raise (Exc ValueError ("Path is not a file: " +:+ input_path))
  else
  try_except
    (f ← open_rb input_path;
     mret tt)
    (fun e => raise (Exc Exception_ ("Audio file not readable: " +:+ exc_str e)));;
  print ("Audio file validated: " +:+ input_path).

(** [result.get("text", "").strip()] *)
Definition get_text_strip (result : gmap string jval) : M State string :=
  match result !! "text" with
  | None => mret (strip "")
  | Some (JStr s) => mret (strip s)
  | Some JNull =>
      raise (Exc AttributeError "'NoneType' object has no attribute 'strip'")
  | Some (JArr _) =>
      raise (Exc AttributeError "'list' object has no attribute 'strip'")
  end.

Definition transcribe_audio (w : World) (audio_path api_key : string) : M State string :=
  print ("Transcribing audio with model " +:+ WHISPER_MODEL +:+ "...");;
  let headers := [("Authorization", "Bearer " +:+ api_key)] in
  f ← open_rb audio_path;
  response ← send w (PostFiles MONSTER_API_BASE headers
                               [("file", f)] [("model", WHISPER_MODEL)]);
  if negb (status_code response =? 200) then
    raise (Exc Exception_ ("Transcription failed: "
                           +:+ str_of_int (status_code response)
                           +:+ " - " +:+ text response))
  else
  result ← lift (json response);
  transcript ← get_text_strip result;
  if falsy transcript then
    raise (Exc Exception_ "No transcript generated.")
  else
  print ("Transcript: " +:+ transcript);;
  mret transcript.

(** [result.get("output", [None])[0]] *)
Definition get_output_0 (result : gmap string jval) : M State (option string) :=
  match result !! "output" with
  | None => mret None
  | Some (JArr (x :: _)) => mret x
  | Some (JArr []) => raise (Exc IndexError "list index out of range")
  | Some (JStr (String c _)) => mret (Some (String c ""))
  | Some (JStr "") => raise (Exc IndexError "string index out of range")
  | Some JNull =>
      raise (Exc TypeError "'NoneType' object is not subscriptable")
  end.

Definition generate_image (w : World) (prompt api_key output_path : string) : M State string :=
  print ("Generating image with model " +:+ SDXL_MODEL +:+ "...");;
  let headers := [("Authorization", "Bearer " +:+ api_key);
                  ("Content-Type", "application/json")] in
  response ← send w (PostJson MONSTER_API_BASE headers
                              SDXL_MODEL prompt 512 512 20 None);
  if negb (status_code response =? 200) then
    raise (Exc Exception_ ("Image generation failed: "
                           +:+ str_of_int (status_code response)
                           +:+ " - " +:+ text response))
  else
  result ← lift (json response);
  image_url ← get_output_0 result;
  match image_url with
  | None => raise (Exc Exception_ "No image URL in response.")
  | Some url =>
      if falsy url then raise (Exc Exception_ "No image URL in response.") else
      img_response ← send w (Get url);
      if negb (status_code img_response =? 200) then
        raise (Exc Exception_ "Failed to download image.")
      else
      write_wb w output_path (content img_response);;
      print ("Image saved to " +:+ output_path);;
      mret output_path
  end.

(** The [try] block of [main]. *)
Definition main_body (w : World) (args : Args) : M State unit :=
  api_key ← get_api_key w args;
  print ("Using API key: " +:+ mask_key api_key);;
  if dry_run args then
    print "Dry-run mode: Validating audio file...";;
    validate_audio (audio args);;
    print "Dry-run successful."
  else
  validate_audio (audio args);;
  transcript ← transcribe_audio w (audio args) api_key;
  image_path ← generate_image w transcript api_key (out args);
  print ("Models used: Transcription=" +:+ WHISPER_MODEL
         +:+ ", Image=" +:+ SDXL_MODEL);;
  print ("Transcript: " +:+ transcript);;
  print ("Image saved: " +:+ image_path).

(** [main], after [parse_args]: the exit status of the process and the
    state it leaves.  A normal return ends the process with status 0;
    [sys.exit(1)] in the handler ends it with status 1. *)
Definition main (w : World) (args : Args) (s : State) : Z * State :=
  match main_body w args s with
  | (inr _, s') => (0, s')
  | (inl e, s') => (1, eprint ("Error: " +:+ exc_str e) s')
  end.

(** ** Vocabulary for the properties *)

(** The state after one more line on standard output. *)
Definition printed (line : string) (s : State) : State :=
  {| fs := fs s; stdout := stdout s ++ [line]; stderr := stderr s; net := net s |}.

(** A non-empty key [k] is given by [--api_key], or else by the environment
    variable. *)
Definition key_given (w : World) (args : Args) (k : string) : Prop :=
  k <> "" /\
  (api_key args = Some k \/
   ((api_key args = None \/ api_key args = Some "") /\
    environ w !! "MONSTER_API_KEY" = Some k)).

(** The transcription request for the bytes of the audio file. *)
Definition whisper_request (key bytes : string) : request :=
  PostFiles MONSTER_API_BASE [("Authorization", "Bearer " +:+ key)]
            [("file", bytes)] [("model", WHISPER_MODEL)].

(** The image-generation request for a prompt. *)
Definition sdxl_request (key prompt : string) : request :=
  PostJson MONSTER_API_BASE
           [("Authorization", "Bearer " +:+ key);
            ("Content-Type", "application/json")]
           SDXL_MODEL prompt 512 512 20 None.

(** ** Sample worlds *)

Definition reply (status : Z) (body : gmap string jval) : response :=
  {| status_code := status; text := ""; json := Ok body; content := "" |}.

Definition sample_files : State :=
  {| fs := {[ "a.mp3" := Regular "RIFF" None;
              "music" := NonRegular;
              "locked.mp3" :=
                Regular "" (Some (Exc OSError "[Errno 13] Permission denied: 'locked.mp3'")) ]};
     stdout := []; stderr := []; net := [] |}.

(** No key in the environment; no provider answers. *)
Definition offline : World :=
  {| environ := ∅;
     server := fun _ => Raise (Exc RequestException "no route to host");
     open_wb_error := fun _ => None |}.

(** The image provider answers the generation call with status 200 and the
    given JSON body. *)
Definition world_output (body : gmap string jval) : World :=
  {| environ := {[ "MONSTER_API_KEY" := "monster-key-0001" ]};
     server := fun r =>
       match r with
       | PostFiles _ _ _ _ => Ok (reply 200 {[ "text" := JStr "  a red fox " ]})
       | PostJson _ _ _ _ _ _ _ _ => Ok (reply 200 body)
       | Get _ => Ok {| status_code := 200; text := ""; json := Ok ∅; content := "PNG" |}
       end;
     open_wb_error := fun _ => None |}.

Definition dry_run_args : Args :=
  {| audio := "a.mp3"; out := DEFAULT_OUT; api_key := None; dry_run := true |}.

Definition run_args (path : string) : Args :=
  {| audio := path; out := DEFAULT_OUT; api_key := Some "monster-key-0001";
     dry_run := false |}.

(** A provider that gives one fixed answer to each of the three calls. *)
Definition world_of (transcription generation download : response) : World :=
  {| environ := {[ "MONSTER_API_KEY" := "monster-key-0001" ]};
     server := fun r =>
       match r with
       | PostFiles _ _ _ _ => Ok transcription
       | PostJson _ _ _ _ _ _ _ _ => Ok generation
       | Get _ => Ok download
       end;
     open_wb_error := fun path =>
       if bool_decide (path = "nodir/out.png")
       then Some (Exc FileNotFoundError
                    "[Errno 2] No such file or directory: 'nodir/out.png'")
       else None |}.

(** An answer without JSON: a status, a body text and raw bytes. *)
Definition plain_reply (status : Z) (body bytes : string) : response :=
  {| status_code := status; text := body;
     json := Raise (Exc ValueError "Expecting value: line 1 column 1 (char 0)");
     content := bytes |}.

End ImgGen.

(* ===================================================================== *)
(** * Facts about the Python string operations *)
(* ===================================================================== *)

Module PyFacts.

Lemma app_cons a (s t : string) : String a s +:+ t = String a (s +:+ t).
Proof. reflexivity. Qed.

Lemma app_empty_r (s : string) : s +:+ "" = s.
Proof. induction s as [|a s IH]; [done|]. by rewrite app_cons, IH. Qed.

Lemma app_assoc (s t u : string) : (s +:+ t) +:+ u = s +:+ t +:+ u.
Proof. induction s as [|a s IH]; [done|]. by rewrite !app_cons, IH. Qed.

Lemma length_app (s t : string) :
  String.length (s +:+ t) = (String.length s + String.length t)%nat.
Proof.
  induction s as [|a s IH]; [done|].
  rewrite app_cons. simpl. by rewrite IH.
Qed.

(** ** [startswith] and [contains] *)

Lemma startswith_prefix (p s : string) :
  startswith p s = true <-> exists post, s = p +:+ post.
Proof.
  revert s. induction p as [|a p IH]; intros s.
  - split; [intros _; by exists s | done].
  - destruct s as [|b s]; simpl.
    + split; [done | intros [post H]; discriminate H].
    + rewrite andb_true_iff, bool_decide_eq_true, IH. split.
      * intros [-> [post ->]]. by exists post.
      * intros [post H]. rewrite app_cons in H.
        injection H as -> ->. split; [done | by exists post].
Qed.

Lemma contains_substring (k s : string) :
  contains k s = true <-> substring_of k s.
Proof.
  unfold substring_of. induction s as [|b s IH].
  - simpl. rewrite orb_false_r, startswith_prefix. split.
    + intros [post H]. by exists "", post.
    + intros [[|c pre] [post H]]; [by exists post | discriminate H].
  - simpl. rewrite orb_true_iff, startswith_prefix, IH. split.
    + intros [[post H] | (pre & post & H)].
      * by exists "", post.
      * exists (String b pre), post. by rewrite app_cons, H.
    + intros ([|c pre] & post & H).
      * left. by exists post.
      * right. rewrite app_cons in H. injection H as -> ->. by exists pre, post.
Qed.

(** ** Lengths and indexing *)

Lemma length_repeat_char c (n : Z) :
  String.length (repeat_char c n) = Z.to_nat n.
Proof.
  unfold repeat_char. induction (Z.to_nat n) as [|k IH]; [done|].
  simpl. by rewrite IH.
Qed.

Lemma get_repeat_char c (n : Z) (i : nat) :
  (i < Z.to_nat n)%nat -> String.get i (repeat_char c n) = Some c.
Proof.
  unfold repeat_char. generalize (Z.to_nat n) as k. intros k. revert i.
  induction k as [|k IH]; intros i Hi; [lia|].
  destruct i as [|i]; [done|]. simpl. apply IH. lia.
Qed.

Lemma length_take_str n (s : string) :
  String.length (take_str n s) = (n `min` String.length s)%nat.
Proof.
  revert s. induction n as [|n IH]; intros [|c s]; simpl; try done.
  by rewrite IH.
Qed.

Lemma get_take_str n (s : string) i :
  (i < n)%nat -> String.get i (take_str n s) = String.get i s.
Proof.
  revert s i. induction n as [|n IH]; intros s i Hi; [lia|].
  destruct s as [|c s]; [done|]. destruct i as [|i]; [done|].
  simpl. apply IH. lia.
Qed.

Lemma length_drop_str n (s : string) :
  String.length (drop_str n s) = (String.length s - n)%nat.
Proof.
  revert s. induction n as [|n IH]; intros [|c s]; simpl; try done.
Qed.

Lemma get_drop_str n (s : string) i :
  (n <= String.length s)%nat ->
  String.get i (drop_str n s) = String.get (n + i) s.
Proof.
  revert s. induction n as [|n IH]; intros s Hn; [done|].
  destruct s as [|c s]; simpl in *; [lia|]. apply IH. lia.
Qed.

Lemma get_app_l (s t : string) i :
  (i < String.length s)%nat -> String.get i (s +:+ t) = String.get i s.
Proof.
  revert i. induction s as [|c s IH]; intros i Hi; simpl in Hi; [lia|].
  rewrite app_cons. destruct i as [|i]; [done|]. simpl. apply IH. lia.
Qed.

Lemma get_app_r (s t : string) i :
  String.get (String.length s + i) (s +:+ t) = String.get i t.
Proof. induction s as [|c s IH]; [done|]. by rewrite app_cons. Qed.

(** ** [strip] *)

(** Induction that may use the tails one, two and three bytes down. *)
Lemma string_tail_ind (P : string -> Prop) :
  (forall s, (forall a s1, s = String a s1 -> P s1) ->
             (forall a b s2, s = String a (String b s2) -> P s2) ->
             (forall a b c s3, s = String a (String b (String c s3)) -> P s3) ->
             P s) ->
  forall s, P s.
Proof.
  intros step s.
  assert (H : P s /\ (forall a, P (String a s)) /\ (forall a b, P (String a (String b s)))).
  { induction s as [|x s (H0 & H1 & H2)].
    - assert (P0 : P "") by (apply step; intros; discriminate).
      assert (P1 : forall a, P (String a "")).
      { intros a. apply step; intros; simplify_eq; done. }
      split; [done|]. split; [done|].
      intros a b. apply step; intros; simplify_eq; done.
    - split; [apply H1|]. split; [intros a; apply H2|].
      intros a b. apply step; intros; simplify_eq; auto. }
  apply H.
Qed.

Lemma lstrip_decomp s : exists ws, all_space ws = true /\ s = ws +:+ lstrip s.
Proof.
  induction s as [s IH1 IH2 IH3] using string_tail_ind.
  destruct s as [|a s1]; [by exists ""|]. simpl.
  destruct (isspace a) eqn:Ha.
  { destruct (IH1 a s1 eq_refl) as (ws & Hws & Hs).
    exists (String a ws). simpl. rewrite Ha. split; [done|].
    by rewrite app_cons, <- Hs. }
  destruct s1 as [|b s2]; [by exists ""|].
  destruct (isspace2 a b) eqn:Hab.
  { destruct (IH2 a b s2 eq_refl) as (ws & Hws & Hs).
    exists (String a (String b ws)). simpl. rewrite Ha, Hab. split; [done|].
    by rewrite !app_cons, <- Hs. }
  destruct s2 as [|c s3]; [by exists ""|].
  destruct (isspace3 a b c) eqn:Habc; [|by exists ""].
  destruct (IH3 a b c s3 eq_refl) as (ws & Hws & Hs).
  exists (String a (String b (String c ws))). simpl. rewrite Ha, Hab, Habc.
  split; [done|]. by rewrite !app_cons, <- Hs.
Qed.

Lemma lstrip_starts s : starts_with_space (lstrip s) = false.
Proof.
  induction s as [s IH1 IH2 IH3] using string_tail_ind.
  destruct s as [|a s1]; [done|]. simpl.
  destruct (isspace a) eqn:Ha; [by eapply IH1|].
  destruct s1 as [|b s2]; [by simpl; rewrite Ha|].
  destruct (isspace2 a b) eqn:Hab; [by eapply IH2|].
  destruct s2 as [|c s3]; [by simpl; rewrite Ha, Hab|].
  destruct (isspace3 a b c) eqn:Habc; [by eapply IH3|].
  simpl. by rewrite Ha, Hab, Habc.
Qed.

Lemma lstrip_all_space s : all_space s = true -> lstrip s = "".
Proof.
  induction s as [s IH1 IH2 IH3] using string_tail_ind.
  destruct s as [|a s1]; [done|]. simpl.
  destruct (isspace a) eqn:Ha; [by eapply IH1|].
  destruct s1 as [|b s2]; [done|].
  destruct (isspace2 a b) eqn:Hab; [by eapply IH2|].
  destruct s2 as [|c s3]; [done|].
  destruct (isspace3 a b c) eqn:Habc; [|done]. simpl. by eapply IH3.
Qed.

Lemma isspace2_lead a b : isspace2 a b = true -> isspace a = false.
Proof.
  unfold isspace, isspace2. destruct (N_of_ascii a =? 194)%N eqn:E; [|done].
  apply N.eqb_eq in E. by rewrite E.
Qed.

Lemma isspace3_lead a b c :
  isspace3 a b c = true -> isspace a = false /\ forall b', isspace2 a b' = false.
Proof.
  unfold isspace, isspace2, isspace3. intros H.
  destruct (N_of_ascii a =? 225)%N eqn:E1;
    [apply N.eqb_eq in E1; by rewrite E1|].
  destruct (N_of_ascii a =? 226)%N eqn:E2;
    [apply N.eqb_eq in E2; by rewrite E2|].
  destruct (N_of_ascii a =? 227)%N eqn:E3;
    [apply N.eqb_eq in E3; by rewrite E3|].
  done.
Qed.

Lemma all_space_app ws s :
  space_char ws = true -> all_space s = true -> all_space (ws +:+ s) = true.
Proof.
  intros Hsp Hs.
  destruct ws as [|a [|b [|c [|d ws]]]]; simpl in Hsp; try done;
    rewrite !app_cons; change ("" +:+ s) with s; cbn [all_space].
  - by rewrite Hsp.
  - by rewrite (isspace2_lead a b Hsp), Hsp.
  - destruct (isspace3_lead a b c Hsp) as [-> ->]. by rewrite Hsp.
Qed.

Lemma rstrip_decomp s : exists ws, all_space ws = true /\ s = rstrip s +:+ ws.
Proof.
  induction s as [|c s (ws & Hws & IH)]; [by exists ""|].
  cbn [rstrip]. destruct (all_space (String c s)) eqn:Hall.
  - by exists (String c s).
  - exists ws. split; [done|]. by rewrite app_cons, <- IH.
Qed.

Lemma rstrip_ends s : ends_with_space (rstrip s) = false.
Proof.
  induction s as [|c s IH]; [done|].
  cbn [rstrip]. destruct (all_space (String c s)) eqn:Hall; [done|].
  cbn [ends_with_space]. rewrite IH, orb_false_r.
  destruct (space_char (String c (rstrip s))) eqn:Hsp; [|done].
  destruct (rstrip_decomp s) as (ws & Hws & Hs).
  pose proof (all_space_app _ _ Hsp Hws) as Happ.
  rewrite app_cons, <- Hs in Happ. congruence.
Qed.

Lemma starts_with_space_app s t :
  starts_with_space s = true -> starts_with_space (s +:+ t) = true.
Proof.
  intros H.
  destruct s as [|a [|b [|c s]]]; simpl in H; try done;
    rewrite !app_cons; change ("" +:+ t) with t; cbn [starts_with_space].
  - rewrite orb_false_r in H. by rewrite H.
  - rewrite orb_false_r in H.
    apply orb_true_iff in H as [-> | ->]; [done|].
    destruct t; by rewrite ?orb_true_r.
Qed.

(** [strip] removes white space at both ends and nothing else. *)
Lemma strip_stripped_of t : stripped_of t (strip t).
Proof.
  unfold stripped_of, trimmed, strip.
  destruct (lstrip_decomp t) as (l & Hl & Ht).
  destruct (rstrip_decomp (lstrip t)) as (r & Hr & Hlt).
  split; [split|].
  - destruct (starts_with_space (rstrip (lstrip t))) eqn:E; [|done].
    apply (starts_with_space_app _ r) in E. rewrite <- Hlt in E.
    by rewrite lstrip_starts in E.
  - apply rstrip_ends.
  - exists l, r. split; [done|]. split; [done|]. by rewrite <- Hlt.
Qed.

Example strip_nbsp :
  strip (nbsp +:+ " hello world" +:+ nbsp) = "hello world" /\ strip nbsp = "".
Proof. by split. Qed.

(** A text of white space only strips to the empty string. *)
Lemma strip_all_space t : all_space t = true -> strip t = "".
Proof. intros H. unfold strip. by rewrite (lstrip_all_space t H). Qed.

(** ** Stepping through monadic code *)

Section monad_steps.
Context {S A B : Type}.
Implicit Types (m : M S A) (k : A -> M S B) (h : exc -> M S A).

Lemma bind_ok m k s x s' : m s = (Ok x, s') -> (m ≫= k) s = k x s'.
Proof. intros H. unfold mbind, M_bind, bind. by rewrite H. Qed.

Lemma bind_raise m k s e s' :
  m s = (Raise e, s') -> (m ≫= k) s = (Raise e, s').
Proof. intros H. unfold mbind, M_bind, bind. by rewrite H. Qed.

Lemma try_except_ok m h s x s' :
  m s = (Ok x, s') -> try_except m h s = (Ok x, s').
Proof. intros H. unfold try_except. by rewrite H. Qed.

Lemma try_except_raise m h s e s' :
  m s = (Raise e, s') -> try_except m h s = h e s'.
Proof. intros H. unfold try_except. by rewrite H. Qed.

Lemma try_except_class_ok is_C m h s x s' :
  m s = (Ok x, s') -> try_except_class is_C m h s = (Ok x, s').
Proof. intros H. unfold try_except_class. by rewrite H. Qed.

Lemma try_except_class_caught is_C m h s e s' :
  m s = (Raise e, s') -> is_C e = true ->
  try_except_class is_C m h s = h e s'.
Proof. intros H HC. unfold try_except_class. by rewrite H, HC. Qed.

Lemma try_except_class_passed is_C m h s e s' :
  m s = (Raise e, s') -> is_C e = false ->
  try_except_class is_C m h s = (Raise e, s').
Proof. intros H HC. unfold try_except_class. by rewrite H, HC. Qed.
End monad_steps.

End PyFacts.

(* ===================================================================== *)
(** * Properties of gemini.py *)
(* ===================================================================== *)

Module GeminiFacts.
Import PyFacts Gemini.

(** ** The keyword classifier *)

(** C2. [is_real_time_query] answers true exactly when the lower-cased
    message has one of the six fixed keywords as a substring.  It is a total
    function to [bool] on strings: it reads nothing but its argument and has
    no way to fail. *)
Theorem is_real_time_query_iff (message : string) :
  is_real_time_query message = true <->
  exists keyword,
    keyword ∈ ["current"; "price"; "weather"; "today"; "now"; "live"] /\
    substring_of keyword (lower message).
Proof.
  unfold is_real_time_query, REAL_TIME_KEYWORDS.
  rewrite existsb_exists. split.
  - intros (k & Hin & Hk). exists k. split.
    + by apply list_elem_of_In.
    + by apply contains_substring.
  - intros (k & Hin & Hk). exists k. split.
    + by apply list_elem_of_In.
    + by apply contains_substring.
Qed.

Lemma is_real_time_query_iff_witness :
  is_real_time_query "What's the WEATHER now?" = true.
Proof.
  apply (is_real_time_query_iff "What's the WEATHER now?").
  exists "weather". split.
  - set_solver.
  - by exists "what's the ", " now?".
Defined.

Example is_real_time_query_joke : is_real_time_query "Tell me a joke" = false.
Proof. reflexivity. Qed.

(** ** The search fetcher *)

Lemma getitem_some item key v (s : State) :
  item !! key = Some v -> getitem item key s = (Ok v, s).
Proof. intros H. unfold getitem. by rewrite H. Qed.

Lemma getitem_none item key (s : State) :
  item !! key = None ->
  getitem item key s = (Raise (Exc KeyError ("'" +:+ key +:+ "'")), s).
Proof. intros H. unfold getitem. by rewrite H. Qed.

Lemma getitem_state item key (s : State) : (getitem item key s).2 = s.
Proof. unfold getitem. by destruct (item !! key). Qed.

Lemma format_item_ok item p (s : State) :
  has_title_snippet item p -> format_item item s = (Ok (result_line p), s).
Proof.
  intros [Ht Hs]. unfold format_item.
  erewrite bind_ok by (by apply getitem_some).
  erewrite bind_ok by (by apply getitem_some). done.
Qed.

Lemma format_item_state item (s : State) : (format_item item s).2 = s.
Proof.
  unfold format_item, getitem.
  destruct (item !! "title") as [t|] eqn:Ht; [|done].
  erewrite bind_ok by reflexivity.
  by destruct (item !! "snippet").
Qed.

Lemma format_items_ok results pairs (s : State) :
  Forall2 has_title_snippet results pairs ->
  format_items results s = (Ok (result_line <$> pairs), s).
Proof.
  induction 1 as [|item p results pairs Hp _ IH]; [done|].
  simpl. erewrite bind_ok by (by apply format_item_ok).
  erewrite bind_ok by exact IH. done.
Qed.

Lemma format_items_state results (s : State) : (format_items results s).2 = s.
Proof.
  induction results as [|item results IH]; [done|]. simpl.
  pose proof (format_item_state item s) as Hi.
  destruct (format_item item s) as [[e|line] s1] eqn:E; simpl in Hi; subst s1.
  - by erewrite bind_raise by exact E.
  - erewrite bind_ok by exact E.
    destruct (format_items results s) as [[e|lines] s2] eqn:E2;
      simpl in IH; subst s2.
    + by erewrite bind_raise by exact E2.
    + by erewrite bind_ok by exact E2.
Qed.

Lemma requests_get_ok w url r (s : State) :
  web w url = Ok r -> requests_get w url s = (Ok r, log (SearchGet url) s).
Proof. intros H. unfold requests_get. by rewrite H. Qed.

Lemma requests_get_raise w url e (s : State) :
  web w url = Raise e -> requests_get w url s = (Raise e, log (SearchGet url) s).
Proof. intros H. unfold requests_get. by rewrite H. Qed.

Lemma raise_for_status_ok r (s : State) :
  (400 <=? status_code r) && (status_code r <? 600) = false ->
  raise_for_status r s = (Ok tt, s).
Proof. intros H. unfold raise_for_status. by rewrite H. Qed.

(** A fetch makes exactly one outbound call, whatever its outcome. *)
Lemma fetch_search_results_state w query (s : State) :
  (fetch_search_results w query s).2 = log (SearchGet (search_url (env w) query)) s.
Proof.
  unfold fetch_search_results, try_except_class. cbv zeta.
  set (url := search_url (env w) query).
  destruct (web w url) as [e|r] eqn:Hweb.
  { erewrite bind_raise by (by apply requests_get_raise).
    by destruct (isinstance_RequestException e). }
  erewrite bind_ok by (by apply requests_get_ok).
  unfold raise_for_status.
  destruct ((400 <=? status_code r) && (status_code r <? 600)).
  { by erewrite bind_raise by reflexivity. }
  erewrite bind_ok by reflexivity.
  destruct (json r) as [e|data].
  { erewrite bind_raise by reflexivity.
    by destruct (isinstance_RequestException e). }
  erewrite bind_ok by reflexivity.
  destruct (default [] (items data)) as [|item results]; [done|].
  pose proof (format_items_state (take 3 (item :: results)) (log (SearchGet url) s)) as Hf.
  destruct (format_items _ _) as [[e|lines] s1] eqn:E; simpl in Hf; subst s1.
  - erewrite bind_raise by exact E.
    by destruct (isinstance_RequestException e).
  - by erewrite bind_ok by exact E.
Qed.

Lemma fetch_search_results_items w query data (s : State) results pairs :
  search_succeeds w query data ->
  items data = Some results -> results <> [] ->
  Forall2 has_title_snippet (take 3 results) pairs ->
  fetch_search_results w query s =
    (Ok ("Real-time data from search:" +:+ nl +:+ join nl (result_line <$> pairs)),
     log (SearchGet (search_url (env w) query)) s).
Proof.
  intros (r & Hweb & Hst & Hjson) Hitems Hne Hp.
  unfold fetch_search_results. cbv zeta.
  apply try_except_class_ok.
  erewrite bind_ok by (by apply requests_get_ok).
  erewrite bind_ok by (by apply raise_for_status_ok).
  rewrite Hjson. erewrite bind_ok by reflexivity.
  rewrite Hitems. change (default [] (Some results)) with results.
  destruct results as [|item results]; [done|].
  erewrite bind_ok by (by apply format_items_ok). done.
Qed.

Lemma fetch_search_results_empty w query data (s : State) :
  search_succeeds w query data ->
  default [] (items data) = [] ->
  fetch_search_results w query s =
    (Ok "No relevant search results found.",
     log (SearchGet (search_url (env w) query)) s).
Proof.
  intros (r & Hweb & Hst & Hjson) Hitems.
  unfold fetch_search_results. cbv zeta.
  apply try_except_class_ok.
  erewrite bind_ok by (by apply requests_get_ok).
  erewrite bind_ok by (by apply raise_for_status_ok).
  rewrite Hjson. erewrite bind_ok by reflexivity.
  by rewrite Hitems.
Qed.

(** A transport failure is re-raised as a plain [Exception] whose text
    carries the fixed prefix. *)
Lemma fetch_search_results_transport w query e (s : State) :
  web w (search_url (env w) query) = Raise e ->
  isinstance_RequestException e = true ->
  fetch_search_results w query s =
    (Raise (Exc Exception_ ("Error fetching search results: " +:+ exc_str e)),
     log (SearchGet (search_url (env w) query)) s).
Proof.
  intros Hweb He. unfold fetch_search_results. cbv zeta.
  erewrite try_except_class_caught; [done| |exact He].
  by erewrite bind_raise by (by apply requests_get_raise).
Qed.

(** An item among the first three that lacks its title makes the fetch
    raise the [KeyError] itself: it is no [RequestException]. *)
Lemma fetch_search_results_key_error w query data (s : State) item results :
  search_succeeds w query data ->
  items data = Some (item :: results) ->
  item !! "title" = None ->
  fetch_search_results w query s =
    (Raise (Exc KeyError "'title'"),
     log (SearchGet (search_url (env w) query)) s).
Proof.
  intros (r & Hweb & Hst & Hjson) Hitems Hnone.
  unfold fetch_search_results. cbv zeta.
  erewrite try_except_class_passed; [done| |done].
  erewrite bind_ok by (by apply requests_get_ok).
  erewrite bind_ok by (by apply raise_for_status_ok).
  rewrite Hjson. erewrite bind_ok by reflexivity.
  rewrite Hitems. change (default [] (Some (item :: results))) with (item :: results).
  cbv iota. erewrite bind_raise; [done|].
  change (take 3 (item :: results)) with (item :: take 2 results).
  simpl format_items. erewrite bind_raise; [done|].
  unfold format_item. erewrite bind_raise; [done|]. by apply getitem_none.
Qed.

(** ** Prompt composition and the chat call *)

Lemma send_prompt_trace w prompt (s : State) :
  trace (send_prompt w prompt s).2 = trace s ++ [ChatSend prompt].
Proof.
  unfold send_prompt, try_except, send_message.
  by destruct (gemini w (history s) prompt).
Qed.

Lemma send_prompt_reply w prompt (s : State) reply :
  gemini w (history s) prompt = Ok reply ->
  (send_prompt w prompt s).1 = Ok reply.
Proof.
  intros H. unfold send_prompt, try_except, send_message. by rewrite H.
Qed.

Lemma generate_response_unfold w message prompt (s s1 : State) :
  compose_prompt w message s = (Ok prompt, s1) ->
  generate_response w message s = send_prompt w prompt s1.
Proof. intros H. unfold generate_response. by erewrite bind_ok. Qed.

(** C1. When the message is classified as real-time and the fetch raises
    an error [e], the prompt is the message, a blank line, and the fixed
    note followed by the text of [e]; the turn goes on: that prompt is sent
    to the chat session right after the search call, and the provider's
    reply to it is what [generate_response] returns. *)
Theorem generate_response_search_error w message (s s1 : State) e :
  is_real_time_query message = true ->
  fetch_search_results w message s = (Raise e, s1) ->
  let prompt :=
    message +:+ nl +:+ nl
    +:+ "Note: Could not fetch real-time data due to error: " +:+ exc_str e in
  compose_prompt w message s = (Ok prompt, s1) /\
  generate_response w message s = send_prompt w prompt s1 /\
  trace (generate_response w message s).2 =
    trace s ++ [SearchGet (search_url (env w) message); ChatSend prompt] /\
  (forall reply, gemini w (history s) prompt = Ok reply ->
                 (generate_response w message s).1 = Ok reply).
Proof.
  intros Hrt Hfetch prompt.
  assert (Hc : compose_prompt w message s = (Ok prompt, s1)).
  { unfold compose_prompt. rewrite Hrt.
    erewrite try_except_raise; [done|]. by erewrite bind_raise. }
  assert (Hs1 : s1 = log (SearchGet (search_url (env w) message)) s).
  { pose proof (fetch_search_results_state w message s) as H.
    by rewrite Hfetch in H. }
  rewrite (generate_response_unfold _ _ _ _ _ Hc).
  split; [done|]. split; [done|]. split.
  - rewrite send_prompt_trace, Hs1. simpl. by rewrite <- (assoc_L (++)).
  - intros reply Hr. apply send_prompt_reply. by rewrite Hs1.
Qed.

Lemma generate_response_search_error_witness :
  (generate_response world_down "weather" fresh).1 =
    Ok ("Reply to: weather" +:+ nl +:+ nl
        +:+ "Note: Could not fetch real-time data due to error: "
        +:+ "Error fetching search results: connection refused").
Proof.
  eapply (generate_response_search_error world_down "weather" fresh
            (log (SearchGet (search_url sample_env "weather")) fresh)
            (Exc Exception_ "Error fetching search results: connection refused")).
  - reflexivity.
  - reflexivity.
  - reflexivity.
Defined.

(** C4. When the message is classified as real-time and the search call
    succeeds with no result items (the ["items"] key is absent or holds an
    empty list), the prompt is the message, a blank line and the sentinel
    ["No relevant search results found."], and it is what is sent. *)
Theorem generate_response_no_results w message (s : State) data :
  is_real_time_query message = true ->
  search_succeeds w message data ->
  items data = None \/ items data = Some [] ->
  let prompt := message +:+ nl +:+ nl +:+ "No relevant search results found." in
  let s1 := log (SearchGet (search_url (env w) message)) s in
  compose_prompt w message s = (Ok prompt, s1) /\
  generate_response w message s = send_prompt w prompt s1.
Proof.
  intros Hrt Hok Hzero prompt s1.
  assert (Hc : compose_prompt w message s = (Ok prompt, s1)).
  { unfold compose_prompt. rewrite Hrt.
    erewrite try_except_ok; [done|].
    erewrite bind_ok; [done|].
    apply (fetch_search_results_empty _ _ data); [done|].
    by destruct Hzero as [-> | ->]. }
  split; [done|]. by apply generate_response_unfold.
Qed.

Lemma generate_response_no_results_witness :
  compose_prompt world_no_items "live score" fresh =
    (Ok ("live score" +:+ nl +:+ nl +:+ "No relevant search results found."),
     log (SearchGet (search_url sample_env "live score")) fresh).
Proof.
  apply (generate_response_no_results world_no_items "live score" fresh
           {| items := None |}).
  - reflexivity.
  - exists (reply_200 {| items := None |}). by repeat split.
  - by left.
Defined.

(** C3, as amended. When the message is classified as real-time, the search
    call succeeds with [N >= 1] items, and each of the first [min(N, 3)]
    items carries a title and a snippet, the prompt is the message, a blank
    line, the header ["Real-time data from search:"] on its own line, and
    one line ["- {title}: {snippet}"] for each of those items, joined by
    line feeds in the order of the reply.  [pairs] lists the titles and
    snippets of the first [min(N, 3)] items, in order. *)
Theorem generate_response_search_results w message (s : State) data results pairs :
  is_real_time_query message = true ->
  search_succeeds w message data ->
  items data = Some results ->
  (1 <= length results)%nat ->
  Forall2 has_title_snippet (take (length results `min` 3) results) pairs ->
  let prompt :=
    message +:+ nl +:+ nl +:+ "Real-time data from search:" +:+ nl
    +:+ join nl (result_line <$> pairs) in
  let s1 := log (SearchGet (search_url (env w) message)) s in
  length pairs = (length results `min` 3)%nat /\
  compose_prompt w message s = (Ok prompt, s1) /\
  generate_response w message s = send_prompt w prompt s1.
Proof.
  intros Hrt Hok Hitems Hlen Hp prompt s1.
  assert (Htake : take (length results `min` 3) results = take 3 results).
  { destruct (decide (length results <= 3)%nat) as [Hle|Hgt].
    - rewrite Nat.min_l by done. rewrite !take_ge; [done|lia|lia].
    - by rewrite Nat.min_r by lia. }
  assert (Hc : compose_prompt w message s = (Ok prompt, s1)).
  { unfold compose_prompt. rewrite Hrt.
    erewrite try_except_ok; [done|].
    rewrite Htake in Hp.
    erewrite bind_ok; [done|].
    apply (fetch_search_results_items _ _ data _ results); try done.
    intros ->. simpl in Hlen. lia. }
  split; [|split; [done | by apply generate_response_unfold]].
  apply Forall2_length in Hp. rewrite <- Hp, length_take. lia.
Qed.

Lemma generate_response_search_results_witness :
  compose_prompt
    (world_items [mk_item "T1" "S1"; mk_item "T2" "S2";
                  mk_item "T3" "S3"; mk_item "T4" "S4"])
    "bitcoin price" fresh =
  (Ok ("bitcoin price" +:+ nl +:+ nl +:+ "Real-time data from search:" +:+ nl
       +:+ "- T1: S1" +:+ nl +:+ "- T2: S2" +:+ nl +:+ "- T3: S3"),
   log (SearchGet (search_url sample_env "bitcoin price")) fresh).
Proof.
  pose (l := [mk_item "T1" "S1"; mk_item "T2" "S2";
              mk_item "T3" "S3"; mk_item "T4" "S4"]).
  apply (generate_response_search_results (world_items l) "bitcoin price" fresh
           {| items := Some l |} l [("T1", "S1"); ("T2", "S2"); ("T3", "S3")]).
  - reflexivity.
  - exists (reply_200 {| items := Some l |}). by repeat split.
  - reflexivity.
  - simpl. lia.
  - repeat constructor.
Defined.

(** C3 as first stated fails: a successful reply whose single item has a
    title but no snippet does not lead to a prompt that opens with the
    header.  The lookup of the snippet raises [KeyError], which is not a
    [RequestException], so it reaches [generate_response], whose handler
    puts the error note into the prompt. *)
Lemma generate_response_item_without_snippet :
  is_real_time_query "weather" = true /\
  search_succeeds (world_items [item_without_snippet]) "weather"
    {| items := Some [item_without_snippet] |} /\
  (compose_prompt (world_items [item_without_snippet]) "weather" fresh).1 =
    Ok ("weather" +:+ nl +:+ nl
        +:+ "Note: Could not fetch real-time data due to error: 'snippet'") /\
  forall summary : string,
    (compose_prompt (world_items [item_without_snippet]) "weather" fresh).1 <>
      Ok ("weather" +:+ nl +:+ nl +:+ "Real-time data from search:" +:+ nl
          +:+ summary).
Proof.
  split; [reflexivity|]. split.
  { exists (reply_200 {| items := Some [item_without_snippet] |}).
    by repeat split. }
  split; [reflexivity|].
  intros summary H. vm_compute in H. discriminate H.
Qed.

End GeminiFacts.

(* ===================================================================== *)
(** * Properties of img_gen.py *)
(* ===================================================================== *)

Module ImgGenFacts.
Import PyFacts ImgGen.

(** ** Key masking *)

(** C9. A key of at most 8 characters is masked as asterisks only, as many
    as the key has characters.  A longer key keeps its first 4 and its last
    4 characters where they are, has an asterisk at every position in
    between, and keeps its length. *)
Theorem mask_key_spec (key : string) :
  let n := String.length key in
  String.length (mask_key key) = n /\
  ((n <= 8)%nat ->
   forall i, (i < n)%nat -> String.get i (mask_key key) = Some "*"%char) /\
  ((8 < n)%nat ->
   (forall i, (i < 4)%nat -> String.get i (mask_key key) = String.get i key) /\
   (forall i, (n - 4 <= i < n)%nat ->
              String.get i (mask_key key) = String.get i key) /\
   (forall i, (4 <= i < n - 4)%nat ->
              String.get i (mask_key key) = Some "*"%char)).
Proof.
  intros n. unfold mask_key, len. fold n.
  destruct (8 <? Z.of_nat n) eqn:Hlong.
  - apply Z.ltb_lt in Hlong.
    assert (Hstars : Z.to_nat (Z.of_nat n - 8) = (n - 8)%nat) by lia.
    assert (Htake : String.length (take_str 4 key) = 4%nat).
    { rewrite length_take_str. fold n. lia. }
    split; [|split; [lia|intros _; split; [|split]]].
    + rewrite !length_app, Htake, length_repeat_char, Hstars.
      unfold last_str. rewrite length_drop_str. fold n. lia.
    + intros i Hi. rewrite get_app_l by lia. by apply get_take_str.
    + intros i Hi.
      replace i with (String.length (take_str 4 key)
                      + (String.length (repeat_char "*" (Z.of_nat n - 8))
                         + (i - (n - 4))))%nat at 1
        by (rewrite Htake, length_repeat_char, Hstars; lia).
      rewrite !get_app_r. unfold last_str. fold n.
      rewrite get_drop_str by (fold n; lia). f_equal. lia.
    + intros i Hi.
      replace i with (String.length (take_str 4 key) + (i - 4))%nat at 1
        by (rewrite Htake; lia).
      rewrite get_app_r, get_app_l by (rewrite length_repeat_char; lia).
      apply get_repeat_char. lia.
  - apply Z.ltb_ge in Hlong.
    split; [|split; [|lia]].
    + rewrite length_repeat_char. lia.
    + intros _ i Hi. apply get_repeat_char. lia.
Qed.

Lemma mask_key_spec_witness :
  String.get 0 (mask_key "monster-key-0001") = Some "m"%char /\
  String.get 7 (mask_key "monster-key-0001") = Some "*"%char /\
  String.get 2 (mask_key "hunter2") = Some "*"%char.
Proof.
  destruct (mask_key_spec "monster-key-0001") as (_ & _ & Hlong).
  destruct (mask_key_spec "hunter2") as (_ & Hshort & _).
  destruct Hlong as (Hfirst & _ & Hmid); [simpl; lia|].
  split; [|split].
  - rewrite Hfirst by lia. reflexivity.
  - apply Hmid. simpl. lia.
  - apply Hshort; simpl; lia.
Defined.

Example mask_key_long : mask_key "monster-key-0001" = "mons********0001".
Proof. reflexivity. Qed.

Example mask_key_nine : mask_key "abcdefghi" = "abcd*fghi".
Proof. reflexivity. Qed.

Example mask_key_eight : mask_key "abcdefgh" = "********".
Proof. reflexivity. Qed.

(** ** Audio validation *)

Lemma validate_audio_not_found path (s : State) :
  fs s !! path = None ->
  validate_audio path s =
    (Raise (Exc FileNotFoundError ("Audio file not found: " +:+ path)), s).
Proof.
  intros H. unfold validate_audio.
  erewrite bind_ok by reflexivity.
  rewrite H. by rewrite bool_decide_eq_false_2 by (by intros [? ?]).
Qed.

Lemma validate_audio_not_a_file path (s : State) :
  fs s !! path = Some NonRegular ->
  validate_audio path s =
    (Raise (Exc ValueError ("Path is not a file: " +:+ path)), s).
Proof.
  intros H. unfold validate_audio.
  erewrite bind_ok by reflexivity.
  rewrite H, bool_decide_eq_true_2 by eauto. simpl.
  erewrite bind_ok by reflexivity. by rewrite H.
Qed.

Lemma validate_audio_unreadable path (s : State) bytes e :
  fs s !! path = Some (Regular bytes (Some e)) ->
  validate_audio path s =
    (Raise (Exc Exception_ ("Audio file not readable: " +:+ exc_str e)), s).
Proof.
  intros H. unfold validate_audio.
  erewrite bind_ok by reflexivity.
  rewrite H, bool_decide_eq_true_2 by eauto. simpl.
  erewrite bind_ok by reflexivity. rewrite H. simpl.
  erewrite bind_raise; [done|].
  erewrite try_except_raise; [done|].
  erewrite bind_raise; [done|]. unfold open_rb. by rewrite H.
Qed.

Lemma validate_audio_readable path (s : State) bytes :
  fs s !! path = Some (Regular bytes None) ->
  validate_audio path s =
    (Ok tt, printed ("Audio file validated: " +:+ path) s).
Proof.
  intros H. unfold validate_audio.
  erewrite bind_ok by reflexivity.
  rewrite H, bool_decide_eq_true_2 by eauto. simpl.
  erewrite bind_ok by reflexivity. rewrite H. simpl.
  erewrite bind_ok; [done|].
  erewrite try_except_ok; [done|].
  erewrite bind_ok; [done|]. unfold open_rb. by rewrite H.
Qed.

(** C7, as amended. [validate_audio] raises [FileNotFoundError] for a path
    that does not exist, [ValueError] for an existing path that is not a
    regular file, and a plain [Exception] carrying the I/O error's text
    when opening the file or reading from it raises; none of these changes
    anything.  For a readable regular file, whatever its bytes, it returns
    normally, leaves the files, the error stream and the network untouched,
    and prints the one line ["Audio file validated: {path}"] on standard
    output. *)
Theorem validate_audio_spec path (s : State) :
  (fs s !! path = None ->
   validate_audio path s =
     (Raise (Exc FileNotFoundError ("Audio file not found: " +:+ path)), s)) /\
  (fs s !! path = Some NonRegular ->
   validate_audio path s =
     (Raise (Exc ValueError ("Path is not a file: " +:+ path)), s)) /\
  (forall bytes e,
     fs s !! path = Some (Regular bytes (Some e)) ->
     validate_audio path s =
       (Raise (Exc Exception_ ("Audio file not readable: " +:+ exc_str e)), s)) /\
  (forall bytes,
     fs s !! path = Some (Regular bytes None) ->
     let s' := (validate_audio path s).2 in
     (validate_audio path s).1 = Ok tt /\
     fs s' = fs s /\ net s' = net s /\ stderr s' = stderr s /\
     stdout s' = stdout s ++ ["Audio file validated: " +:+ path]).
Proof.
  split; [apply validate_audio_not_found|].
  split; [apply validate_audio_not_a_file|].
  split; [apply validate_audio_unreadable|].
  intros bytes H. by rewrite (validate_audio_readable _ _ _ H).
Qed.

Lemma validate_audio_spec_witness :
  validate_audio "missing.wav" sample_files =
    (Raise (Exc FileNotFoundError "Audio file not found: missing.wav"), sample_files) /\
  validate_audio "music" sample_files =
    (Raise (Exc ValueError "Path is not a file: music"), sample_files) /\
  validate_audio "locked.mp3" sample_files =
    (Raise (Exc Exception_
       "Audio file not readable: [Errno 13] Permission denied: 'locked.mp3'"),
     sample_files) /\
  (validate_audio "a.mp3" sample_files).1 = Ok tt.
Proof.
  destruct (validate_audio_spec "missing.wav" sample_files) as (H1 & _).
  destruct (validate_audio_spec "music" sample_files) as (_ & H2 & _).
  destruct (validate_audio_spec "locked.mp3" sample_files) as (_ & _ & H3 & _).
  destruct (validate_audio_spec "a.mp3" sample_files) as (_ & _ & _ & H4).
  split; [|split; [|split]].
  - apply H1. reflexivity.
  - apply H2. reflexivity.
  - apply (H3 "" (Exc OSError "[Errno 13] Permission denied: 'locked.mp3'")).
    reflexivity.
  - apply (H4 "RIFF"). reflexivity.
Defined.

(** C7 as first stated fails in its last part: validating a readable file
    is not free of effects, it writes a line to standard output. *)
Lemma validate_audio_prints :
  fs sample_files !! "a.mp3" = Some (Regular "RIFF" None) /\
  (validate_audio "a.mp3" sample_files).1 = Ok tt /\
  stdout (validate_audio "a.mp3" sample_files).2 = ["Audio file validated: a.mp3"] /\
  (validate_audio "a.mp3" sample_files).2 <> sample_files.
Proof.
  split; [reflexivity|]. split; [reflexivity|]. split; [reflexivity|].
  intros H. apply (f_equal stdout) in H. vm_compute in H. discriminate H.
Qed.

(** ** The command-line driver *)

Lemma get_api_key_state w args (s : State) : (get_api_key w args s).2 = s.
Proof.
  unfold get_api_key.
  destruct (py_or _ _) as [k|]; [|done]. by destruct (falsy k).
Qed.

Lemma get_api_key_given w args k (s : State) :
  key_given w args k -> get_api_key w args s = (Ok k, s).
Proof.
  intros [Hk Hsrc]. unfold get_api_key, py_or, os_getenv.
  assert (Hf : falsy k = false) by (by apply bool_decide_eq_false_2).
  destruct Hsrc as [-> | [[-> | ->] ->]]; simpl; rewrite ?Hf; simpl;
    by rewrite ?Hf.
Qed.

Lemma get_api_key_missing w args (s : State) :
  api_key args = None -> environ w !! "MONSTER_API_KEY" = None ->
  get_api_key w args s =
    (Raise (Exc ValueError
       "MonsterAPI key not provided. Use --api_key or set MONSTER_API_KEY env var."), s).
Proof.
  intros Ha He. unfold get_api_key, py_or, os_getenv. by rewrite Ha, He.
Qed.

(** C8. When the [--audio] path does not exist, the process ends with
    status 1 and one more line on the error stream, and the file system is
    what it was: no output image has been created (nor any outbound call
    made). *)
Theorem main_audio_not_found w args (s : State) :
  fs s !! audio args = None ->
  let r := main w args s in
  r.1 = 1 /\
  (exists line, stderr r.2 = stderr s ++ [line]) /\
  fs r.2 = fs s /\
  fs r.2 !! out args = fs s !! out args /\
  net r.2 = net s.
Proof.
  intros Hnone.
  unfold main, main_body.
  pose proof (get_api_key_state w args s) as Hk.
  destruct (get_api_key w args s) as [[e0|k] s0] eqn:Ek; simpl in Hk; subst s0.
  { erewrite bind_raise by exact Ek. simpl. eauto 6. }
  erewrite bind_ok by exact Ek.
  erewrite bind_ok by reflexivity.
  destruct (dry_run args).
  - erewrite bind_ok by reflexivity.
    erewrite bind_raise by (by apply validate_audio_not_found).
    simpl. eauto 6.
  - erewrite bind_raise by (by apply validate_audio_not_found).
    simpl. eauto 6.
Qed.

Lemma main_audio_not_found_witness :
  (main (world_output ∅) (run_args "missing.wav") sample_files).1 = 1.
Proof.
  apply (main_audio_not_found (world_output ∅) (run_args "missing.wav") sample_files).
  reflexivity.
Defined.

Example main_audio_not_found_stderr :
  stderr (main (world_output ∅) (run_args "missing.wav") sample_files).2
  = ["Error: Audio file not found: missing.wav"].
Proof. reflexivity. Qed.

(** In a dry run no outbound call is made, whatever else happens. *)
Lemma main_dry_run_offline w args (s : State) :
  dry_run args = true -> net (main w args s).2 = net s.
Proof.
  intros Hdry. unfold main, main_body. rewrite Hdry.
  pose proof (get_api_key_state w args s) as Hk.
  destruct (get_api_key w args s) as [[e0|k] s0] eqn:Ek; simpl in Hk; subst s0.
  { by erewrite bind_raise by exact Ek. }
  erewrite bind_ok by exact Ek.
  erewrite bind_ok by reflexivity.
  erewrite bind_ok by reflexivity.
  destruct (fs s !! audio args) as [[|bytes [e|]]|] eqn:Hf.
  - by erewrite bind_raise by (by apply validate_audio_not_a_file).
  - by erewrite bind_raise by (by eapply validate_audio_unreadable).
  - by erewrite bind_ok by (by eapply validate_audio_readable).
  - by erewrite bind_raise by (by apply validate_audio_not_found).
Qed.

(** C5, as amended. With [--dry_run], an [--audio] path naming a readable
    regular file, and a non-empty key given by [--api_key] or by
    [MONSTER_API_KEY], the process makes no outbound call and ends with
    status 0. *)
Theorem main_dry_run_ok w args (s : State) bytes k :
  dry_run args = true ->
  fs s !! audio args = Some (Regular bytes None) ->
  key_given w args k ->
  (main w args s).1 = 0 /\ net (main w args s).2 = net s.
Proof.
  intros Hdry Hf Hkey. split; [|by apply main_dry_run_offline].
  unfold main, main_body. rewrite Hdry.
  erewrite bind_ok by (by apply get_api_key_given).
  erewrite bind_ok by reflexivity.
  erewrite bind_ok by reflexivity.
  by erewrite bind_ok by (by eapply validate_audio_readable).
Qed.

Lemma main_dry_run_ok_witness :
  (main (world_output ∅) dry_run_args sample_files).1 = 0 /\
  net (main (world_output ∅) dry_run_args sample_files).2 = [].
Proof.
  apply (main_dry_run_ok (world_output ∅) dry_run_args sample_files
           "RIFF" "monster-key-0001").
  - reflexivity.
  - reflexivity.
  - split; [done|]. right. split; [by left | reflexivity].
Defined.

(** C5 as first stated fails: a dry run on a readable file ends with
    status 1 when no key is given, because [main] resolves the key before
    it looks at [--dry_run]. *)
Lemma main_dry_run_without_key :
  dry_run dry_run_args = true /\
  fs sample_files !! audio dry_run_args = Some (Regular "RIFF" None) /\
  (main offline dry_run_args sample_files).1 = 1 /\
  stderr (main offline dry_run_args sample_files).2 =
    ["Error: MonsterAPI key not provided. Use --api_key or set MONSTER_API_KEY env var."].
Proof. by repeat split. Qed.

(** ** Transcription *)

Ltac run_all :=
  unfold send, print, write_wb, get_output_0, get_text_strip, open_rb,
    try_except, lift, mbind, M_bind, bind, mret, M_ret, ret, raise in *.

Lemma transcribe_audio_ok w path key (s : State) bytes r result t :
  fs s !! path = Some (Regular bytes None) ->
  server w (whisper_request key bytes) = Ok r ->
  status_code r = 200 ->
  json r = Ok result ->
  result !! "text" = Some (JStr t) ->
  strip t <> "" ->
  transcribe_audio w path key s =
    (Ok (strip t),
     {| fs := fs s;
        stdout := stdout s ++ ["Transcribing audio with model whisper-large-v3...";
                               "Transcript: " +:+ strip t];
        stderr := stderr s;
        net := net s ++ [whisper_request key bytes] |}).
Proof.
  intros Hf Hsrv Hst Hjson Htext Hne.
  unfold transcribe_audio. cbv zeta.
  erewrite bind_ok by reflexivity.
  erewrite bind_ok by (unfold open_rb; simpl; rewrite Hf; reflexivity).
  fold (whisper_request key bytes).
  erewrite bind_ok by (unfold send; rewrite Hsrv; reflexivity).
  rewrite Hst. change (negb (200 =? 200)) with false. cbv iota.
  rewrite Hjson. erewrite bind_ok by reflexivity.
  erewrite bind_ok by (unfold get_text_strip; rewrite Htext; reflexivity).
  unfold falsy. rewrite bool_decide_eq_false_2 by done.
  erewrite bind_ok by reflexivity. simpl.
  by rewrite <- (assoc_L (++)).
Qed.

(** Image generation opens with the generation request for its prompt. *)
Lemma generate_image_net w prompt key path (s : State) :
  exists rest,
    net (generate_image w prompt key path s).2 =
      net s ++ sdxl_request key prompt :: rest.
Proof.
  unfold generate_image. run_all. simpl.
  fold (sdxl_request key prompt).
  repeat case_match; simplify_eq/=; rewrite <- ?(assoc_L (++)); eauto.
Qed.

(** C10. When the audio file can be read and the transcription call is
    answered with status 200 and a JSON body whose ["text"] is a string that
    is not blank, [transcribe_audio] returns that text without its leading
    and trailing white space; and in a full run of [main] this trimmed text
    is the prompt of the image-generation request that follows the
    transcription request. *)
Theorem transcribe_audio_strips w path key (s : State) bytes r result t :
  fs s !! path = Some (Regular bytes None) ->
  server w (whisper_request key bytes) = Ok r ->
  status_code r = 200 ->
  json r = Ok result ->
  result !! "text" = Some (JStr t) ->
  strip t <> "" ->
  (transcribe_audio w path key s).1 = Ok (strip t) /\
  stripped_of t (strip t) /\
  (forall args,
     audio args = path -> dry_run args = false -> key_given w args key ->
     exists rest,
       net (main w args s).2 =
         net s ++ whisper_request key bytes :: sdxl_request key (strip t) :: rest).
Proof.
  intros Hf Hsrv Hst Hjson Htext Hne.
  split; [by erewrite transcribe_audio_ok|].
  split; [apply strip_stripped_of|].
  intros args <- Hdry Hkey. unfold main, main_body. rewrite Hdry.
  erewrite bind_ok by (by apply get_api_key_given).
  erewrite bind_ok by reflexivity.
  erewrite bind_ok by (by eapply validate_audio_readable).
  erewrite bind_ok by (by eapply transcribe_audio_ok).
  match goal with
  | |- context [(generate_image w ?p ?k ?o ≫= _) ?s1] =>
      destruct (generate_image_net w p k o s1) as [rest Hnet];
      destruct (generate_image w p k o s1) as [[e|image_path] s2] eqn:Eg
  end; simpl in Hnet.
  - erewrite bind_raise by exact Eg. simpl. rewrite Hnet.
    rewrite <- (assoc_L (++)). eauto.
  - erewrite bind_ok by exact Eg. simpl. rewrite Hnet.
    rewrite <- (assoc_L (++)). eauto.
Qed.

Lemma transcribe_audio_strips_witness :
  (transcribe_audio (world_output ∅) "a.mp3" "monster-key-0001" sample_files).1 =
    Ok "a red fox".
Proof.
  apply (transcribe_audio_strips (world_output ∅) "a.mp3" "monster-key-0001"
           sample_files "RIFF"
           (reply 200 {[ "text" := JStr "  a red fox " ]})
           {[ "text" := JStr "  a red fox " ]} "  a red fox ").
  - reflexivity.
  - reflexivity.
  - reflexivity.
  - reflexivity.
  - reflexivity.
  - discriminate.
Defined.

(** ** Image generation *)

(** [generate_image] up to the parsed body of a reply with status 200. *)
Lemma generate_image_parsed w prompt key path (s : State) r result :
  server w (sdxl_request key prompt) = Ok r ->
  status_code r = 200 ->
  json r = Ok result ->
  exists k s1,
    generate_image w prompt key path s = (get_output_0 result ≫= k) s1 /\
    forall url, url <> "" ->
      k (Some url) =
        (img_response ← send w (Get url);
         if negb (status_code img_response =? 200) then
           raise (Exc Exception_ "Failed to download image.")
         else
           write_wb w path (content img_response);;
           print ("Image saved to " +:+ path);;
           mret path) /\
      k None = raise (Exc Exception_ "No image URL in response.") /\
      k (Some "") = raise (Exc Exception_ "No image URL in response.").
Proof.
  intros Hsrv Hst Hjson. unfold generate_image. cbv zeta.
  erewrite bind_ok by reflexivity.
  fold (sdxl_request key prompt).
  erewrite bind_ok by (unfold send; rewrite Hsrv; reflexivity).
  rewrite Hst. change (negb (200 =? 200)) with false. cbv iota.
  rewrite Hjson. erewrite bind_ok by reflexivity.
  eexists _, _. split; [reflexivity|].
  intros url Hurl. cbv beta iota. unfold falsy.
  rewrite bool_decide_eq_false_2 by done. by rewrite bool_decide_eq_true_2.
Qed.

(** A generation reply whose status is not 200 fails the call with the
    status and the body in the text. *)
Lemma generate_image_generation_failed w prompt key path (s : State) r :
  server w (sdxl_request key prompt) = Ok r ->
  status_code r <> 200 ->
  (generate_image w prompt key path s).1 =
    Raise (Exc Exception_ ("Image generation failed: "
                           +:+ str_of_int (status_code r)
                           +:+ " - " +:+ text r)).
Proof.
  intros Hsrv Hst. unfold generate_image. cbv zeta.
  erewrite bind_ok by reflexivity.
  fold (sdxl_request key prompt).
  erewrite bind_ok by (unfold send; rewrite Hsrv; reflexivity).
  by rewrite (proj2 (Z.eqb_neq _ _) Hst).
Qed.

(** A reply with status 200 and no ["output"] key, or whose first output
    entry is null or the empty string, fails with the missing-URL error. *)
Lemma generate_image_missing_url w prompt key path (s : State) r result rest :
  server w (sdxl_request key prompt) = Ok r ->
  status_code r = 200 ->
  json r = Ok result ->
  result !! "output" = None \/
  result !! "output" = Some (JArr (None :: rest)) \/
  result !! "output" = Some (JArr (Some "" :: rest)) ->
  (generate_image w prompt key path s).1 =
    Raise (Exc Exception_ "No image URL in response.").
Proof.
  intros Hsrv Hst Hjson Hout.
  destruct (generate_image_parsed w prompt key path s r result Hsrv Hst Hjson)
    as (k & s1 & -> & Hk).
  destruct (Hk "x" ltac:(done)) as (_ & Hnone & Hempty).
  unfold get_output_0.
  destruct Hout as [-> | [-> | ->]].
  - erewrite bind_ok by reflexivity. by rewrite Hnone.
  - erewrite bind_ok by reflexivity. by rewrite Hnone.
  - erewrite bind_ok by reflexivity. by rewrite Hempty.
Qed.

(** A download reply whose status is not 200 fails with the download
    error. *)
Lemma generate_image_download_failed w prompt key path (s : State)
    r result url rest img :
  server w (sdxl_request key prompt) = Ok r ->
  status_code r = 200 ->
  json r = Ok result ->
  result !! "output" = Some (JArr (Some url :: rest)) ->
  url <> "" ->
  server w (Get url) = Ok img ->
  status_code img <> 200 ->
  (generate_image w prompt key path s).1 =
    Raise (Exc Exception_ "Failed to download image.").
Proof.
  intros Hsrv Hst Hjson Hout Hurl Hget Himg.
  destruct (generate_image_parsed w prompt key path s r result Hsrv Hst Hjson)
    as (k & s1 & -> & Hk).
  destruct (Hk url Hurl) as (Hsome & _).
  unfold get_output_0. rewrite Hout.
  erewrite bind_ok by reflexivity. rewrite Hsome.
  erewrite bind_ok by (unfold send; rewrite Hget; reflexivity).
  by rewrite (proj2 (Z.eqb_neq _ _) Himg).
Qed.

(** C6, at the input where the code departs from it. A generation reply
    with status 200 whose ["output"] list is empty does not fail with the
    missing-URL error: indexing the empty list raises [IndexError] before
    the URL is tested, and no download is attempted. *)
Theorem generate_image_empty_output w prompt key path (s : State) r result :
  server w (sdxl_request key prompt) = Ok r ->
  status_code r = 200 ->
  json r = Ok result ->
  result !! "output" = Some (JArr []) ->
  (generate_image w prompt key path s).1 =
    Raise (Exc IndexError "list index out of range") /\
  (generate_image w prompt key path s).1 <>
    Raise (Exc Exception_ "No image URL in response.") /\
  net (generate_image w prompt key path s).2 = net s ++ [sdxl_request key prompt].
Proof.
  intros Hsrv Hst Hjson Hout.
  assert (Hrun : generate_image w prompt key path s =
                 (Raise (Exc IndexError "list index out of range"),
                  {| fs := fs s;
                     stdout := stdout s ++ ["Generating image with model sdxl..."];
                     stderr := stderr s;
                     net := net s ++ [sdxl_request key prompt] |})).
  { unfold generate_image. cbv zeta.
    erewrite bind_ok by reflexivity.
    fold (sdxl_request key prompt).
    erewrite bind_ok by (unfold send; rewrite Hsrv; reflexivity).
    rewrite Hst. change (negb (200 =? 200)) with false. cbv iota.
    rewrite Hjson. erewrite bind_ok by reflexivity.
    erewrite bind_raise; [done|].
    unfold get_output_0. by rewrite Hout. }
  rewrite Hrun. by repeat split.
Qed.

Lemma generate_image_empty_output_witness :
  (generate_image (world_output {[ "output" := JArr [] ]})
     "a red fox" "monster-key-0001" "output.png" sample_files).1 =
    Raise (Exc IndexError "list index out of range").
Proof.
  apply (generate_image_empty_output (world_output {[ "output" := JArr [] ]})
           "a red fox" "monster-key-0001" "output.png" sample_files
           (reply 200 {[ "output" := JArr [] ]}) {[ "output" := JArr [] ]}).
  - reflexivity.
  - reflexivity.
  - reflexivity.
  - reflexivity.
Defined.

(** The whole process on that reply: status 1 and the index error on the
    error stream. *)
Example main_empty_output :
  let r := main (world_output {[ "output" := JArr [] ]}) (run_args "a.mp3") sample_files in
  r.1 = 1 /\ stderr r.2 = ["Error: list index out of range"] /\
  fs r.2 !! "output.png" = None.
Proof. by repeat split. Qed.

End ImgGenFacts.

(* ===================================================================== *)
(** * Further properties of gemini.py *)
(* ===================================================================== *)

Module GeminiMore.
Import PyFacts Gemini GeminiFacts.

(** ** More on the classifier *)

Lemma lower_char_idemp c : lower_char (lower_char c) = lower_char c.
Proof. by destruct c as [[] [] [] [] [] [] [] []]. Qed.

Lemma lower_idemp s : lower (lower s) = lower s.
Proof.
  induction s as [|c s IH]; [done|]. simpl. by rewrite lower_char_idemp, IH.
Qed.

Lemma lower_app (s t : string) : lower (s +:+ t) = lower s +:+ lower t.
Proof.
  induction s as [|c s IH]; [done|]. rewrite app_cons. simpl.
  by rewrite IH.
Qed.

(** X1. The classification does not depend on letter case: a message and
    its lower-cased form are classified alike. *)
Theorem is_real_time_query_lower (message : string) :
  is_real_time_query (lower message) = is_real_time_query message.
Proof. unfold is_real_time_query. by rewrite lower_idemp. Qed.

(** X2. The test is a substring test, not a word test: once a message is
    classified as real-time, so is every message that contains it, whatever
    text comes before or after. *)
Theorem is_real_time_query_context (before message after : string) :
  is_real_time_query message = true ->
  is_real_time_query (before +:+ message +:+ after) = true.
Proof.
  unfold is_real_time_query. rewrite !existsb_exists.
  intros (k & Hk & Hc). exists k. split; [done|].
  apply contains_substring in Hc as (pre & post & Hm).
  apply contains_substring.
  exists (lower before +:+ pre), (post +:+ lower after).
  by rewrite !lower_app, Hm, !PyFacts.app_assoc.
Qed.

Lemma is_real_time_query_context_witness :
  is_real_time_query ("I k" +:+ "now" +:+ " nothing") = true.
Proof. apply is_real_time_query_context. reflexivity. Defined.

(** ** More on the search fetcher *)

(** X4. A reply with a 4xx or 5xx status makes the fetch raise a plain
    [Exception] whose text is the fixed prefix followed by the text of the
    HTTP error; the body of the reply is not looked at. *)
Theorem fetch_search_results_http_error w query (s : State) r :
  web w (search_url (env w) query) = Ok r ->
  400 <= status_code r < 600 ->
  fetch_search_results w query s =
    (Raise (Exc Exception_ ("Error fetching search results: " +:+ http_error_text r)),
     log (SearchGet (search_url (env w) query)) s).
Proof.
  intros Hweb Hst. unfold fetch_search_results. cbv zeta.
  assert (Hraise : raise_for_status r (log (SearchGet (search_url (env w) query)) s)
                   = (Raise (Exc RequestException (http_error_text r)),
                      log (SearchGet (search_url (env w) query)) s)).
  { unfold raise_for_status.
    by rewrite (proj2 (Z.leb_le _ _) (proj1 Hst)),
               (proj2 (Z.ltb_lt _ _) (proj2 Hst)). }
  erewrite try_except_class_caught; cycle 1.
  - erewrite bind_ok by (by apply requests_get_ok).
    erewrite bind_raise by exact Hraise. reflexivity.
  - reflexivity.
  - reflexivity.
Qed.

Lemma fetch_search_results_http_error_witness :
  (fetch_search_results
     (echo_world (fun _ => Ok {| status_code := 403;
                                 http_error_text := "403 Client Error: Forbidden";
                                 json := Ok {| items := None |} |}))
     "price" fresh).1 =
  Raise (Exc Exception_
           "Error fetching search results: 403 Client Error: Forbidden").
Proof.
  rewrite (fetch_search_results_http_error _ "price" fresh
             {| status_code := 403;
                http_error_text := "403 Client Error: Forbidden";
                json := Ok {| items := None |} |});
    [reflexivity | reflexivity | simpl; lia].
Defined.

(** X5. No [RequestException] leaves [fetch_search_results]: whatever it
    raises is of another class. *)
Theorem fetch_search_results_no_request_exception w query (s : State) e :
  (fetch_search_results w query s).1 = Raise e ->
  isinstance_RequestException e = false.
Proof.
  unfold fetch_search_results, try_except_class. cbv zeta.
  match goal with |- context [let (_, _) := ?body s in _] =>
    destruct (body s) as [[e0|x] s1] end; [|done].
  destruct (isinstance_RequestException e0) eqn:He0; simpl; by intros [= <-].
Qed.

Lemma fetch_search_results_no_request_exception_witness :
  isinstance_RequestException
    (Exc Exception_ "Error fetching search results: connection refused") = false.
Proof.
  apply (fetch_search_results_no_request_exception world_down "weather" fresh).
  reflexivity.
Defined.

(** After a successful call the outcome is a function of the first three
    items only. *)
Lemma fetch_search_results_of_items w query (s : State) data :
  search_succeeds w query data ->
  fetch_search_results w query s =
    try_except_class isinstance_RequestException
      (match take 3 (default [] (items data)) with
       | [] => mret "No relevant search results found."
       | first3 =>
           lines ← format_items first3;
           mret ("Real-time data from search:" +:+ nl +:+ join nl lines)
       end)
      (fun e => raise (Exc Exception_ ("Error fetching search results: " +:+ exc_str e)))
      (log (SearchGet (search_url (env w) query)) s).
Proof.
  intros (r & Hweb & Hst & Hjson).
  unfold fetch_search_results. cbv zeta. unfold try_except_class.
  erewrite bind_ok by (by apply requests_get_ok).
  erewrite bind_ok by (by apply raise_for_status_ok).
  rewrite Hjson. erewrite bind_ok by reflexivity.
  by destruct (default [] (items data)) as [|i l].
Qed.

(** X6. Only the first three items of a reply are read: two successful
    replies that agree on them give the same summary, whatever follows. *)
Theorem fetch_search_results_first_three w w' query (s : State) data data' :
  env w = env w' ->
  search_succeeds w query data ->
  search_succeeds w' query data' ->
  take 3 (default [] (items data)) = take 3 (default [] (items data')) ->
  fetch_search_results w query s = fetch_search_results w' query s.
Proof.
  intros Henv Hok Hok' Htake.
  rewrite (fetch_search_results_of_items _ _ _ _ Hok).
  rewrite (fetch_search_results_of_items _ _ _ _ Hok').
  by rewrite Htake, Henv.
Qed.

Lemma fetch_search_results_first_three_witness :
  fetch_search_results
    (world_items [mk_item "T1" "S1"; mk_item "T2" "S2"; mk_item "T3" "S3";
                  item_without_snippet]) "today" fresh =
  fetch_search_results
    (world_items [mk_item "T1" "S1"; mk_item "T2" "S2"; mk_item "T3" "S3"])
    "today" fresh.
Proof.
  eapply fetch_search_results_first_three.
  - reflexivity.
  - eexists (reply_200 _). by repeat split.
  - eexists (reply_200 _). by repeat split.
  - reflexivity.
Defined.

(** ** More on [generate_response] *)

Lemma chat_calls_app t1 t2 : chat_calls (t1 ++ t2) = (chat_calls t1 + chat_calls t2)%nat.
Proof.
  induction t1 as [|[url|p] t1 IH]; simpl; [done|done|by rewrite IH].
Qed.

(** Composing the prompt never fails; the prompt opens with the message,
    and the search call is made exactly for a real-time message. *)
Lemma compose_prompt_shape w message (s : State) :
  exists suffix,
    compose_prompt w message s =
      (Ok (message +:+ suffix),
       if is_real_time_query message
       then log (SearchGet (search_url (env w) message)) s else s) /\
    (is_real_time_query message = false -> suffix = "").
Proof.
  unfold compose_prompt. destruct (is_real_time_query message).
  - pose proof (fetch_search_results_state w message s) as Hs.
    destruct (fetch_search_results w message s) as [[e|d] s1] eqn:E;
      simpl in Hs; subst s1.
    + eexists. split; [|intros [=]].
      erewrite try_except_raise; cycle 1.
      { erewrite bind_raise by exact E. reflexivity. }
      reflexivity.
    + eexists. split; [|intros [=]].
      erewrite try_except_ok; cycle 1.
      { erewrite bind_ok by exact E. reflexivity. }
      reflexivity.
  - exists "". split; [|done]. by rewrite app_empty_r.
Qed.

(** X3. A message that is not classified as real-time is sent as it is:
    no search call is made and the one outbound call is the chat call with
    the raw message. *)
Theorem generate_response_plain w message (s : State) :
  is_real_time_query message = false ->
  generate_response w message s = send_prompt w message s /\
  trace (generate_response w message s).2 = trace s ++ [ChatSend message].
Proof.
  intros Hrt.
  assert (Hc : compose_prompt w message s = (Ok message, s)).
  { unfold compose_prompt. by rewrite Hrt. }
  rewrite (generate_response_unfold _ _ _ _ _ Hc).
  split; [done|]. apply send_prompt_trace.
Qed.

Lemma generate_response_plain_witness :
  trace (generate_response world_down "Tell me a joke" fresh).2 =
    [ChatSend "Tell me a joke"].
Proof. by apply (generate_response_plain world_down "Tell me a joke" fresh). Defined.

(** X7. A turn fails only when the chat call fails: every exception that
    leaves [generate_response] is a plain [Exception] whose text is the
    fixed prefix ["Error generating response with Gemini: "] followed by
    the text of the chat provider's error.  A failed search never
    surfaces. *)
Theorem generate_response_failure w message (s : State) e :
  (generate_response w message s).1 = Raise e ->
  exists prompt e0,
    gemini w (history s) prompt = Raise e0 /\
    e = Exc Exception_ ("Error generating response with Gemini: " +:+ exc_str e0).
Proof.
  destruct (compose_prompt_shape w message s) as (suffix & Hc & _).
  rewrite (generate_response_unfold _ _ _ _ _ Hc).
  unfold send_prompt, try_except, send_message.
  set (s1 := if is_real_time_query message then _ else s).
  assert (Hh : history s1 = history s) by (subst s1; by destruct (is_real_time_query _)).
  rewrite Hh.
  destruct (gemini w (history s) (message +:+ suffix)) as [e0|reply] eqn:Eg;
    simpl; [|done].
  intros [= <-]. eauto.
Qed.

Lemma generate_response_failure_witness :
  exists prompt e0,
    gemini world_chat_down (history fresh) prompt = Raise e0 /\
    Exc Exception_ "Error generating response with Gemini: quota exceeded" =
    Exc Exception_ ("Error generating response with Gemini: " +:+ exc_str e0).
Proof.
  apply (generate_response_failure world_chat_down "hello" fresh). reflexivity.
Defined.

(** X8. Every call of [generate_response] makes exactly one chat call, as
    its last outbound call, with a prompt that opens with the user's
    message; a search call comes before it exactly when the message is
    classified as real-time. *)
Theorem generate_response_trace w message (s : State) :
  exists suffix,
    trace (generate_response w message s).2 =
      trace s
      ++ (if is_real_time_query message
          then [SearchGet (search_url (env w) message)] else [])
      ++ [ChatSend (message +:+ suffix)].
Proof.
  destruct (compose_prompt_shape w message s) as (suffix & Hc & _).
  exists suffix. rewrite (generate_response_unfold _ _ _ _ _ Hc).
  rewrite send_prompt_trace.
  destruct (is_real_time_query message); simpl; [|done].
  by rewrite <- (assoc_L (++)).
Qed.

(** ** The interactive driver *)

Lemma answer_chat_calls w user_input (s : State) :
  chat_calls (trace (answer w user_input s).2) = S (chat_calls (trace s)).
Proof.
  unfold answer.
  destruct (compose_prompt_shape w user_input s) as (suffix & Hc & _).
  pose proof (send_prompt_trace w (user_input +:+ suffix)
                (if is_real_time_query user_input
                 then log (SearchGet (search_url (env w) user_input)) s else s)) as Ht.
  rewrite (generate_response_unfold _ _ _ _ _ Hc).
  destruct (send_prompt _ _ _) as [[e|reply] s1]; simpl in *; rewrite Ht;
    rewrite chat_calls_app; destruct (is_real_time_query user_input); simpl;
    rewrite ?chat_calls_app; simpl; lia.
Qed.

(** The loop over lines none of which is the exit word: one chat call and
    two entries of output (the prompt and the answer or error line) per
    line, then the loop goes on with what is left of the input. *)
Lemma chat_loop_turns w lines :
  Forall (fun line => is_exit line = false) lines ->
  forall (s : State) out, exists s' out',
    (forall rest, chat_loop w (lines ++ rest) s out = chat_loop w rest s' out') /\
    chat_calls (trace s') = (chat_calls (trace s) + length lines)%nat /\
    length out' = (length out + 2 * length lines)%nat.
Proof.
  induction 1 as [|line lines Hline _ IH]; intros s out.
  - exists s, out. repeat split; simpl; lia.
  - unfold is_exit in Hline.
    destruct (answer w (strip line) s) as [printed s1] eqn:Ea.
    destruct (IH s1 (out ++ ["You: "; printed])) as (s' & out' & Hloop & Hcalls & Hout).
    exists s', out'. split; [|split].
    + intros rest. simpl. rewrite Hline, Ea. apply Hloop.
    + rewrite Hcalls. pose proof (answer_chat_calls w (strip line) s) as Hc.
      rewrite Ea in Hc. simpl in *. lia.
    + rewrite Hout, List.length_app. simpl. lia.
Qed.

(** X9. A session in which some lines are typed and then the exit word (in
    any letter case, with any white space around it): the loop ends with
    ["Goodbye!"], having made exactly one chat call per line before the exit
    word, whether those turns succeeded or failed, and having written a
    prompt and one answer or error line for each; lines after the exit word
    are never read. *)
Theorem main_exit w lines line rest :
  Forall (fun l => is_exit l = false) lines ->
  is_exit line = true ->
  let r := main w (lines ++ line :: rest) in
  r = main w (lines ++ [line]) /\
  r.1.1 = Goodbye /\
  chat_calls (trace r.1.2) = length lines /\
  length r.2 = (2 * length lines + 4)%nat /\
  last r.2 = Some "Goodbye!".
Proof.
  intros Hlines Hexit r. subst r. unfold main.
  destruct (chat_loop_turns w lines Hlines {| history := []; trace := [] |}
              ["Intelligent Chatbot with Gemini and Real-Time Search";
               "Type 'exit' to quit."]) as (s' & out' & Hloop & Hcalls & Hout).
  rewrite !Hloop. unfold is_exit in Hexit. simpl. rewrite Hexit. simpl.
  split; [done|]. split; [done|]. split; [simpl in Hcalls; lia|].
  split.
  - rewrite List.length_app, Hout. simpl. lia.
  - change (out' ++ ["You: "; "Goodbye!"])
      with (out' ++ ["You: "] ++ ["Goodbye!"]).
    by rewrite (assoc_L (++)), last_snoc.
Qed.

Example main_exit_nbsp :
  main world_chat_down [nbsp +:+ "EXIT" +:+ nbsp; "unread"] =
    (Goodbye, fresh,
     ["Intelligent Chatbot with Gemini and Real-Time Search";
      "Type 'exit' to quit."; "You: "; "Goodbye!"]).
Proof. reflexivity. Qed.

Lemma main_exit_witness :
  main world_chat_down ["hi"; "what is the price?"; "  Exit "; "unread"] =
    (Goodbye,
     {| history := [];
        trace := [ChatSend "hi";
                  SearchGet (search_url sample_env "what is the price?");
                  ChatSend ("what is the price?" +:+ nl +:+ nl
                            +:+ "Note: Could not fetch real-time data due to error: "
                            +:+ "Error fetching search results: connection refused")] |},
     ["Intelligent Chatbot with Gemini and Real-Time Search";
      "Type 'exit' to quit.";
      "You: ";
      "Error: Error generating response with Gemini: quota exceeded. Please try again.";
      "You: ";
      "Error: Error generating response with Gemini: quota exceeded. Please try again.";
      "You: "; "Goodbye!"]).
Proof.
  destruct (main_exit world_chat_down ["hi"; "what is the price?"] "  Exit "
              ["unread"]) as (-> & _).
  - by repeat constructor.
  - reflexivity.
  - reflexivity.
Defined.

(** X10. When standard input runs out before the exit word is typed, the
    loop has made one chat call per line and then ends on the failed
    [input]: no ["Goodbye!"] is printed. *)
Theorem main_end_of_input w lines :
  Forall (fun l => is_exit l = false) lines ->
  let r := main w lines in
  r.1.1 = EndOfInput /\
  chat_calls (trace r.1.2) = length lines /\
  last r.2 = Some "You: ".
Proof.
  intros Hlines r. subst r. unfold main.
  destruct (chat_loop_turns w lines Hlines {| history := []; trace := [] |}
              ["Intelligent Chatbot with Gemini and Real-Time Search";
               "Type 'exit' to quit."]) as (s' & out' & Hloop & Hcalls & Hout).
  specialize (Hloop []). rewrite app_nil_r in Hloop. rewrite Hloop. simpl.
  split; [done|]. split; [simpl in Hcalls; lia|]. apply last_snoc.
Qed.

Lemma main_end_of_input_witness :
  (main (world_items []) ["hello"; "exit please"]).1.1 = EndOfInput.
Proof.
  apply (main_end_of_input (world_items []) ["hello"; "exit please"]).
  by repeat constructor.
Defined.

End GeminiMore.

(* ===================================================================== *)
(** * Further properties of img_gen.py *)
(* ===================================================================== *)

Module ImgGenMore.
Import PyFacts ImgGen ImgGenFacts.

Ltac run_effects :=
  unfold validate_audio, os_path_exists, os_path_isfile,
    send, print, write_wb, get_output_0, get_text_strip, open_rb,
    try_except, lift, mbind, M_bind, bind, mret, M_ret, ret, raise in *.

(** ** Effects of the three stages *)

Lemma validate_audio_effects path (s : State) :
  let r := validate_audio path s in
  fs r.2 = fs s /\ stderr r.2 = stderr s /\ net r.2 = net s /\
  (forall u, r.1 = Ok u -> exists bytes, fs s !! path = Some (Regular bytes None)).
Proof.
  run_effects. simpl.
  repeat case_match; simplify_eq/=; repeat split; try done; eauto.
Qed.

Lemma transcribe_audio_effects w path key (s : State) :
  let r := transcribe_audio w path key s in
  fs r.2 = fs s /\ stderr r.2 = stderr s /\
  match r.1 with
  | inr _ =>
      exists bytes, fs s !! path = Some (Regular bytes None) /\
                    net r.2 = net s ++ [whisper_request key bytes]
  | inl _ =>
      net r.2 = net s \/
      exists bytes, fs s !! path = Some (Regular bytes None) /\
                    net r.2 = net s ++ [whisper_request key bytes]
  end.
Proof.
  unfold transcribe_audio. run_effects. simpl.
  repeat case_match; simplify_eq/=; repeat split; eauto.
Qed.

Lemma generate_image_effects w prompt key path (s : State) :
  let r := generate_image w prompt key path s in
  stderr r.2 = stderr s /\
  match r.1 with
  | inr p =>
      p = path /\
      exists url img,
        server w (Get url) = Ok img /\
        fs r.2 = <[path := Regular (content img) None]> (fs s) /\
        net r.2 = net s ++ [sdxl_request key prompt; Get url]
  | inl _ =>
      fs r.2 = fs s /\
      (net r.2 = net s ++ [sdxl_request key prompt] \/
       exists url, net r.2 = net s ++ [sdxl_request key prompt; Get url])
  end.
Proof.
  unfold generate_image. run_effects. simpl.
  fold (sdxl_request key prompt).
  repeat case_match; simplify_eq/=; rewrite <- ?(assoc_L (++)); simpl;
    repeat split; eauto.
Qed.

Ltac step_with lem :=
  match goal with
  | |- context [(?m ≫= ?k) ?st] =>
      let H := fresh "Hfx" in
      let E := fresh "E" in
      pose proof (lem st) as H; cbv zeta in H;
      destruct (m st) as [[?e|?x] ?s'] eqn:E; simpl in H;
      [erewrite (bind_raise m k st) by exact E
      |erewrite (bind_ok m k st) by exact E]
  end.

(** Every way a run of [main] can go: its exit status, what it has done
    to the files and which calls it has made. *)
Lemma main_runs w args (s : State) :
  let r := main w args s in
  (r.1 = 0 /\ stderr r.2 = stderr s \/
   r.1 = 1 /\ exists e, stderr r.2 = stderr s ++ ["Error: " +:+ exc_str e]) /\
  ((r.1 = 1 /\ fs r.2 = fs s /\ net r.2 = net s) \/
   (dry_run args = true /\ r.1 = 0 /\ fs r.2 = fs s /\ net r.2 = net s /\
    exists bytes, fs s !! audio args = Some (Regular bytes None)) \/
   exists key bytes,
     dry_run args = false /\
     (get_api_key w args s).1 = Ok key /\
     fs s !! audio args = Some (Regular bytes None) /\
     ((r.1 = 1 /\ fs r.2 = fs s /\
       net r.2 = net s ++ [whisper_request key bytes]) \/
      (exists prompt,
         r.1 = 1 /\ fs r.2 = fs s /\
         (net r.2 = net s ++ [whisper_request key bytes; sdxl_request key prompt] \/
          exists url,
            net r.2 = net s ++ [whisper_request key bytes;
                                sdxl_request key prompt; Get url])) \/
      (exists prompt url img,
         r.1 = 0 /\
         server w (Get url) = Ok img /\
         fs r.2 = <[out args := Regular (content img) None]> (fs s) /\
         net r.2 = net s ++ [whisper_request key bytes;
                             sdxl_request key prompt; Get url]))).
Proof.
  unfold main, main_body.
  pose proof (get_api_key_state w args s) as Hk.
  destruct (get_api_key w args s) as [[e0|k] s0] eqn:Ek; simpl in Hk; subst s0.
  { erewrite bind_raise by exact Ek. simpl. split; [right; eauto | by left]. }
  erewrite bind_ok by exact Ek.
  erewrite bind_ok by reflexivity.
  destruct (dry_run args) eqn:Hdry.
  - erewrite bind_ok by reflexivity.
    step_with (validate_audio_effects (audio args));
      destruct Hfx as (Hfs & Herr & Hnet & Hfile); simpl.
    + rewrite Hfs, Herr, Hnet. split; [right; eauto | by left].
    + rewrite Hfs, Herr, Hnet. split; [by left | right; left].
      destruct (Hfile _ eq_refl) as [bytes Hbytes]. eauto 6.
  - step_with (validate_audio_effects (audio args));
      destruct Hfx as (Hfs & Herr & Hnet & Hfile); simpl.
    { rewrite Hfs, Herr, Hnet. split; [right; eauto | by left]. }
    destruct (Hfile _ eq_refl) as [bytes Hbytes]. simpl in Hbytes.
    step_with (transcribe_audio_effects w (audio args) k);
      destruct Hfx as (Hfs1 & Herr1 & Hnet1); simpl.
    { rewrite Hfs1, Herr1, Hfs, Herr. split; [right; eauto|].
      destruct Hnet1 as [Hnet1 | (bytes' & Hb' & Hnet1)].
      - left. by rewrite Hnet1, Hnet.
      - right; right. exists k, bytes. rewrite Hfs in Hb'. simpl in Hb'.
        assert (bytes' = bytes) as -> by congruence.
        repeat split; [done..|]. left. by rewrite Hnet1, Hnet. }
    destruct Hnet1 as (bytes' & Hb' & Hnet1).
    rewrite Hfs in Hb'. simpl in Hb'.
    assert (bytes' = bytes) as -> by congruence.
    step_with (generate_image_effects w x0 k (out args));
      destruct Hfx as (Herr2 & Hrest); simpl.
    + destruct Hrest as (Hfs2 & Hnet2).
      rewrite Hfs2, Herr2, Hfs1, Herr1, Hfs, Herr.
      split; [right; eauto|]. right; right. exists k, bytes.
      repeat split; [done..|]. right; left. exists x0.
      repeat split; [done..|].
      destruct Hnet2 as [Hnet2 | (url & Hnet2)]; rewrite Hnet2, Hnet1, Hnet;
        rewrite <- (assoc_L (++)); simpl; eauto.
    + destruct Hrest as (-> & url & img & Hget & Hfs2 & Hnet2).
      rewrite Hfs2, Herr2, Hfs1, Herr1, Hfs, Herr.
      split; [by left|]. right; right. exists k, bytes.
      repeat split; [done..|]. right; right. exists x0, url, img.
      repeat split; [done..|].
      rewrite Hnet2, Hnet1, Hnet. by rewrite <- (assoc_L (++)).
Qed.

(** ** The key *)

Lemma get_api_key_returns w args (s : State) k :
  (get_api_key w args s).1 = Ok k -> key_given w args k.
Proof.
  unfold get_api_key, py_or, os_getenv, truthy, falsy, key_given.
  destruct (api_key args) as [a|] eqn:Ha; simpl.
  - case_bool_decide as Hempty; simpl.
    + subst a. destruct (environ w !! "MONSTER_API_KEY") as [v|] eqn:Hv; [|done].
      case_bool_decide; [done|]. intros [= <-]. eauto 6.
    + rewrite bool_decide_eq_false_2 by done. intros [= <-]. eauto.
  - destruct (environ w !! "MONSTER_API_KEY") as [v|] eqn:Hv; [|done].
    case_bool_decide; [done|]. intros [= <-]. eauto 6.
Qed.

Lemma get_api_key_raises w args (s : State) e :
  (get_api_key w args s).1 = Raise e ->
  e = Exc ValueError
        "MonsterAPI key not provided. Use --api_key or set MONSTER_API_KEY env var.".
Proof.
  unfold get_api_key.
  destruct (py_or _ _) as [k|]; [destruct (falsy k)|]; simpl; by intros [= <-].
Qed.

(** X11. The key is the [--api_key] argument when that is a non-empty
    string, and otherwise the [MONSTER_API_KEY] variable when that is a
    non-empty string: an empty argument falls through to the environment.
    With neither, the call raises [ValueError] with its fixed text.  The
    call changes nothing. *)
Theorem get_api_key_spec w args (s : State) :
  (forall k, get_api_key w args s = (Ok k, s) <-> key_given w args k) /\
  ((forall k, ~ key_given w args k) ->
   get_api_key w args s =
     (Raise (Exc ValueError
        "MonsterAPI key not provided. Use --api_key or set MONSTER_API_KEY env var."),
      s)).
Proof.
  split.
  - intros k. split; [|apply get_api_key_given].
    intros H. apply (get_api_key_returns w args s). by rewrite H.
  - intros Hno. pose proof (get_api_key_state w args s) as Hs.
    destruct (get_api_key w args s) as [[e|k] s0] eqn:E; simpl in Hs; subst s0.
    + by rewrite (get_api_key_raises w args s e) by (by rewrite E).
    + destruct (Hno k). apply (get_api_key_returns w args s). by rewrite E.
Qed.

Lemma get_api_key_spec_witness :
  get_api_key (world_output ∅)
    {| audio := "a.mp3"; out := "o.png"; api_key := Some ""; dry_run := false |}
    sample_files = (Ok "monster-key-0001", sample_files) /\
  get_api_key offline dry_run_args sample_files =
    (Raise (Exc ValueError
       "MonsterAPI key not provided. Use --api_key or set MONSTER_API_KEY env var."),
     sample_files).
Proof.
  split.
  - apply get_api_key_spec. split; [done|]. right. split; [by right | reflexivity].
  - apply get_api_key_spec. intros k [Hk [H | [_ H]]]; discriminate H.
Defined.

(** ** Transcription *)

(** X12. When the audio file can be read and the transcription call is
    answered with a status other than 200, [transcribe_audio] raises a plain
    [Exception] whose text gives the status and the body of the answer; the
    body is not parsed. *)
Theorem transcribe_audio_bad_status w path key (s : State) bytes r :
  fs s !! path = Some (Regular bytes None) ->
  server w (whisper_request key bytes) = Ok r ->
  status_code r <> 200 ->
  (transcribe_audio w path key s).1 =
    Raise (Exc Exception_ ("Transcription failed: "
                           +:+ str_of_int (status_code r)
                           +:+ " - " +:+ text r)).
Proof.
  intros Hf Hsrv Hst. unfold transcribe_audio. cbv zeta.
  erewrite bind_ok by reflexivity.
  erewrite bind_ok by (unfold open_rb; simpl; rewrite Hf; reflexivity).
  fold (whisper_request key bytes).
  erewrite bind_ok by (unfold send; rewrite Hsrv; reflexivity).
  by rewrite (proj2 (Z.eqb_neq _ _) Hst).
Qed.

Lemma transcribe_audio_bad_status_witness :
  (transcribe_audio
     (world_of (plain_reply 503 "busy" "") (reply 200 ∅) (reply 200 ∅))
     "a.mp3" "monster-key-0001" sample_files).1 =
    Raise (Exc Exception_ "Transcription failed: 503 - busy").
Proof.
  apply (transcribe_audio_bad_status _ "a.mp3" "monster-key-0001" sample_files
           "RIFF" (plain_reply 503 "busy" "")); [reflexivity|reflexivity|done].
Defined.

(** X13. When the transcription call is answered with status 200 and a
    JSON body that has no ["text"], or whose ["text"] is empty or all white
    space, [transcribe_audio] raises ["No transcript generated."]. *)
Theorem transcribe_audio_blank w path key (s : State) bytes r result :
  fs s !! path = Some (Regular bytes None) ->
  server w (whisper_request key bytes) = Ok r ->
  status_code r = 200 ->
  json r = Ok result ->
  result !! "text" = None \/
  (exists t, result !! "text" = Some (JStr t) /\ all_space t = true) ->
  (transcribe_audio w path key s).1 =
    Raise (Exc Exception_ "No transcript generated.").
Proof.
  intros Hf Hsrv Hst Hjson Htext. unfold transcribe_audio. cbv zeta.
  erewrite bind_ok by reflexivity.
  erewrite bind_ok by (unfold open_rb; simpl; rewrite Hf; reflexivity).
  fold (whisper_request key bytes).
  erewrite bind_ok by (unfold send; rewrite Hsrv; reflexivity).
  rewrite Hst. change (negb (200 =? 200)) with false. cbv iota.
  rewrite Hjson. erewrite bind_ok by reflexivity.
  assert (Hget : forall s1 : State, get_text_strip result s1 = (Ok "", s1)).
  { intros s1. unfold get_text_strip.
    destruct Htext as [-> | (t & -> & Ht)]; [done|].
    by rewrite (strip_all_space t Ht). }
  by erewrite bind_ok by apply Hget.
Qed.

Lemma transcribe_audio_blank_witness :
  (transcribe_audio
     (world_of (reply 200 {[ "text" := JStr "   " ]}) (reply 200 ∅) (reply 200 ∅))
     "a.mp3" "monster-key-0001" sample_files).1 =
    Raise (Exc Exception_ "No transcript generated.").
Proof.
  apply (transcribe_audio_blank _ "a.mp3" "monster-key-0001" sample_files
           "RIFF" (reply 200 {[ "text" := JStr "   " ]}) {[ "text" := JStr "   " ]});
    try reflexivity.
  right. by exists "   ".
Defined.

(** White space outside ASCII is blank too, and is trimmed off a text. *)
Example transcribe_audio_nbsp :
  (transcribe_audio
     (world_of (reply 200 {[ "text" := JStr (nbsp +:+ nbsp) ]}) (reply 200 ∅) (reply 200 ∅))
     "a.mp3" "monster-key-0001" sample_files).1 =
    Raise (Exc Exception_ "No transcript generated.") /\
  (transcribe_audio
     (world_of (reply 200 {[ "text" := JStr (nbsp +:+ "hello" +:+ nbsp) ]})
               (reply 200 ∅) (reply 200 ∅))
     "a.mp3" "monster-key-0001" sample_files).1 = Ok "hello".
Proof. by split. Qed.

(** X14. [transcribe_audio] never changes a file and never writes to the
    error stream.  It makes at most one outbound call, and that call
    uploads the bytes of the audio file under the bearer key; when it
    returns a transcript, the call has been made. *)
Theorem transcribe_audio_footprint w path key (s : State) :
  let r := transcribe_audio w path key s in
  fs r.2 = fs s /\ stderr r.2 = stderr s /\
  (net r.2 = net s \/
   exists bytes, fs s !! path = Some (Regular bytes None) /\
                 net r.2 = net s ++ [whisper_request key bytes]) /\
  (forall t, r.1 = Ok t -> net r.2 <> net s).
Proof.
  intros r. subst r.
  destruct (transcribe_audio_effects w path key s) as (Hfs & Herr & Hnet).
  split; [done|]. split; [done|].
  destruct (transcribe_audio w path key s) as [[e|t] s1]; simpl in *.
  - split; [done|]. by intros t [=].
  - destruct Hnet as (bytes & Hb & Hnet). split; [eauto|].
    intros _ _. rewrite Hnet. intros H.
    apply (f_equal length) in H. rewrite List.length_app in H. simpl in H. lia.
Qed.

(** ** Image generation *)

(** X15. The three failures of [generate_image] that the code provides
    for.  A generation answer with a status other than 200 raises
    ["Image generation failed: {status} - {body}"].  An answer with status
    200 that has no ["output"], or whose first output entry is null or the
    empty string, raises ["No image URL in response."].  When the download
    of the first output URL is answered with a status other than 200, the
    call raises ["Failed to download image."]. *)
Theorem generate_image_failures w prompt key path (s : State) r :
  server w (sdxl_request key prompt) = Ok r ->
  (status_code r <> 200 ->
   (generate_image w prompt key path s).1 =
     Raise (Exc Exception_ ("Image generation failed: "
                            +:+ str_of_int (status_code r)
                            +:+ " - " +:+ text r))) /\
  (forall result,
     status_code r = 200 -> json r = Ok result ->
     (result !! "output" = None \/
      (exists rest, result !! "output" = Some (JArr (None :: rest))) \/
      (exists rest, result !! "output" = Some (JArr (Some "" :: rest))) ->
      (generate_image w prompt key path s).1 =
        Raise (Exc Exception_ "No image URL in response.")) /\
     (forall url rest img,
        result !! "output" = Some (JArr (Some url :: rest)) ->
        url <> "" ->
        server w (Get url) = Ok img ->
        status_code img <> 200 ->
        (generate_image w prompt key path s).1 =
          Raise (Exc Exception_ "Failed to download image."))).
Proof.
  intros Hsrv. split.
  - intros Hst. by apply generate_image_generation_failed.
  - intros result Hst Hjson. split.
    + intros [H | [[rest H] | [rest H]]].
      * apply (generate_image_missing_url w prompt key path s r result []
                 Hsrv Hst Hjson). by left.
      * apply (generate_image_missing_url w prompt key path s r result rest
                 Hsrv Hst Hjson). right; by left.
      * apply (generate_image_missing_url w prompt key path s r result rest
                 Hsrv Hst Hjson). right; by right.
    + intros url rest img Hout Hurl Hget Himg.
      eapply generate_image_download_failed; eauto.
Qed.

Lemma generate_image_failures_witness :
  (generate_image
     (world_of (reply 200 ∅) (plain_reply 429 "slow down" "") (reply 200 ∅))
     "a red fox" "monster-key-0001" "output.png" sample_files).1 =
    Raise (Exc Exception_ "Image generation failed: 429 - slow down") /\
  (generate_image
     (world_of (reply 200 ∅) (reply 200 {[ "status" := JStr "queued" ]}) (reply 200 ∅))
     "a red fox" "monster-key-0001" "output.png" sample_files).1 =
    Raise (Exc Exception_ "No image URL in response.") /\
  (generate_image
     (world_of (reply 200 ∅) (reply 200 {[ "output" := JArr [Some "http://cdn/1.png"] ]})
               (plain_reply 404 "gone" ""))
     "a red fox" "monster-key-0001" "output.png" sample_files).1 =
    Raise (Exc Exception_ "Failed to download image.").
Proof.
  split; [|split].
  - eapply (generate_image_failures _ "a red fox" "monster-key-0001" "output.png"
              sample_files (plain_reply 429 "slow down" "")); [reflexivity|done].
  - eapply (generate_image_failures _ "a red fox" "monster-key-0001" "output.png"
              sample_files (reply 200 {[ "status" := JStr "queued" ]}));
      [reflexivity..|]. by left.
  - eapply (generate_image_failures _ "a red fox" "monster-key-0001" "output.png"
              sample_files (reply 200 {[ "output" := JArr [Some "http://cdn/1.png"] ]}));
      [reflexivity..| done | reflexivity | done].
Defined.

Lemma generate_image_ok w prompt key path (s : State) r result url rest img :
  server w (sdxl_request key prompt) = Ok r ->
  status_code r = 200 ->
  json r = Ok result ->
  result !! "output" = Some (JArr (Some url :: rest)) ->
  url <> "" ->
  server w (Get url) = Ok img ->
  status_code img = 200 ->
  fs s !! path <> Some NonRegular ->
  open_wb_error w path = None ->
  generate_image w prompt key path s =
    (Ok path,
     {| fs := <[path := Regular (content img) None]> (fs s);
        stdout := stdout s ++ ["Generating image with model sdxl...";
                               "Image saved to " +:+ path];
        stderr := stderr s;
        net := net s ++ [sdxl_request key prompt; Get url] |}).
Proof.
  intros Hsrv Hst Hjson Hout Hurl Hget Himg Hfree Hopen.
  unfold generate_image. cbv zeta.
  erewrite bind_ok by reflexivity.
  fold (sdxl_request key prompt).
  erewrite bind_ok by (unfold send; rewrite Hsrv; reflexivity).
  rewrite Hst. change (negb (200 =? 200)) with false. cbv iota.
  rewrite Hjson. erewrite bind_ok by reflexivity.
  erewrite bind_ok by (unfold get_output_0; rewrite Hout; reflexivity).
  cbv iota. unfold falsy. rewrite bool_decide_eq_false_2 by done.
  erewrite bind_ok by (unfold send; rewrite Hget; reflexivity).
  rewrite Himg. change (negb (200 =? 200)) with false. cbv iota.
  erewrite bind_ok;
    [| unfold write_wb; simpl; rewrite Hopen;
       destruct (fs s !! path) as [[|old err]|]; done].
  erewrite bind_ok by reflexivity. simpl.
  by rewrite <- !(assoc_L (++)).
Qed.

(** X16. The successful run of [generate_image]: when the generation call
    is answered with status 200 and a non-empty first output URL, the
    download of that URL is answered with status 200, and the output path
    can be opened for writing (it holds no directory and the operating
    system raises no error), the call returns the output path, has made
    exactly these two calls in this order, and the file at the output path
    now holds the downloaded bytes, replacing what was there.  Output
    entries after the first are not used. *)
Theorem generate_image_success w prompt key path (s : State) r result url rest img :
  server w (sdxl_request key prompt) = Ok r ->
  status_code r = 200 ->
  json r = Ok result ->
  result !! "output" = Some (JArr (Some url :: rest)) ->
  url <> "" ->
  server w (Get url) = Ok img ->
  status_code img = 200 ->
  fs s !! path <> Some NonRegular ->
  open_wb_error w path = None ->
  let res := generate_image w prompt key path s in
  res.1 = Ok path /\
  fs res.2 !! path = Some (Regular (content img) None) /\
  (forall p, p <> path -> fs res.2 !! p = fs s !! p) /\
  net res.2 = net s ++ [sdxl_request key prompt; Get url].
Proof.
  intros Hsrv Hst Hjson Hout Hurl Hget Himg Hfree Hopen res. subst res.
  rewrite (generate_image_ok w prompt key path s r result url rest img) by done.
  simpl. split; [done|]. split; [apply lookup_insert_eq|].
  split; [|done]. intros p Hp. by apply lookup_insert_ne.
Qed.

Lemma generate_image_success_witness :
  let res := generate_image (world_output {[ "output" := JArr [Some "http://cdn/1.png"; None] ]})
               "a red fox" "monster-key-0001" "a.mp3" sample_files in
  res.1 = Ok "a.mp3" /\ fs res.2 !! "a.mp3" = Some (Regular "PNG" None).
Proof.
  destruct (generate_image_success
              (world_output {[ "output" := JArr [Some "http://cdn/1.png"; None] ]})
              "a red fox" "monster-key-0001" "a.mp3" sample_files
              (reply 200 {[ "output" := JArr [Some "http://cdn/1.png"; None] ]})
              {[ "output" := JArr [Some "http://cdn/1.png"; None] ]}
              "http://cdn/1.png" [None]
              {| status_code := 200; text := ""; json := Ok ∅; content := "PNG" |})
    as (H1 & H2 & _); try reflexivity; [done | done |].
  by split.
Defined.

(** When the operating system refuses to open the output path, say because
    its directory is missing, the call raises that error after both calls
    and writes nothing. *)
Example generate_image_missing_directory :
  let res := generate_image
               (world_of (reply 200 ∅)
                         (reply 200 {[ "output" := JArr [Some "http://cdn/1.png"] ]})
                         (plain_reply 200 "" "PNG"))
               "a red fox" "monster-key-0001" "nodir/out.png" sample_files in
  res.1 = Raise (Exc FileNotFoundError
                   "[Errno 2] No such file or directory: 'nodir/out.png'") /\
  fs res.2 = fs sample_files.
Proof. by split. Qed.


(** ** The command-line driver *)

(** X18. The exit status and the error stream go together: a run ends
    with status 0 and nothing written to the error stream, or with status 1
    and exactly one line ["Error: {text}"] added to it. *)
Theorem main_exit_status w args (s : State) :
  let r := main w args s in
  (r.1 = 0 /\ stderr r.2 = stderr s) \/
  (r.1 = 1 /\ exists e, stderr r.2 = stderr s ++ ["Error: " +:+ exc_str e]).
Proof. intros r. apply (main_runs w args s). Qed.



(** X20. A run changes no file other than the one at [--out]. *)
Theorem main_touches_only_out w args (s : State) p :
  p <> out args ->
  fs (main w args s).2 !! p = fs s !! p.
Proof.
  intros Hp.
  destruct (main_runs w args s) as (_ & [H | [H | H]]).
  - destruct H as (_ & -> & _). done.
  - destruct H as (_ & _ & -> & _). done.
  - destruct H as (key & bytes & _ & _ & _ & [H | [H | H]]).
    + destruct H as (_ & -> & _). done.
    + destruct H as (prompt & _ & -> & _). done.
    + destruct H as (prompt & url & img & _ & _ & -> & _).
      by apply lookup_insert_ne.
Qed.

Lemma main_touches_only_out_witness :
  fs (main (world_output {[ "output" := JArr [Some "http://cdn/1.png"] ]})
        (run_args "a.mp3") sample_files).2 !! "a.mp3"
  = Some (Regular "RIFF" None).
Proof.
  rewrite main_touches_only_out; [reflexivity | done].
Defined.

(** X21. The outbound calls of a run are an initial part of the sequence
    transcription, generation, download: never more than these three, never
    out of this order, all under the same key, and the generation request
    is never made without the transcription request before it. *)
Theorem main_calls_in_order w args (s : State) :
  exists calls key bytes prompt url,
    net (main w args s).2 = net s ++ calls /\
    calls `prefix_of` [whisper_request key bytes; sdxl_request key prompt; Get url].
Proof.
  destruct (main_runs w args s) as (_ & [H | [H | H]]).
  - destruct H as (_ & _ & Hnet).
    exists [], "", "", "", "". rewrite Hnet, app_nil_r. split; [done|].
    apply prefix_nil.
  - destruct H as (_ & _ & _ & Hnet & _).
    exists [], "", "", "", "". rewrite Hnet, app_nil_r. split; [done|].
    apply prefix_nil.
  - destruct H as (key & bytes & _ & _ & _ & [H | [H | H]]).
    + destruct H as (_ & _ & Hnet).
      exists [whisper_request key bytes], key, bytes, "", "".
      split; [done|]. by eexists.
    + destruct H as (prompt & _ & _ & [Hnet | [url Hnet]]).
      * exists [whisper_request key bytes; sdxl_request key prompt],
               key, bytes, prompt, "".
        split; [done|]. by eexists.
      * exists [whisper_request key bytes; sdxl_request key prompt; Get url],
               key, bytes, prompt, url.
        split; [done|]. by exists [].
    + destruct H as (prompt & url & img & _ & _ & _ & Hnet).
      exists [whisper_request key bytes; sdxl_request key prompt; Get url],
             key, bytes, prompt, url.
      split; [done|]. by exists [].
Qed.

(** X22. Validation comes before any call: when the [--audio] path is
    anything but a readable regular file (absent, a directory, or a file
    that cannot be read), the run ends with status 1 and has made no
    outbound call and changed no file. *)
Theorem main_invalid_audio w args (s : State) :
  (forall bytes, fs s !! audio args <> Some (Regular bytes None)) ->
  let r := main w args s in
  r.1 = 1 /\ net r.2 = net s /\ fs r.2 = fs s.
Proof.
  intros Hbad r. subst r.
  destruct (main_runs w args s) as (_ & [H | [H | H]]).
  - by destruct H as (? & ? & ?).
  - destruct H as (_ & _ & _ & _ & bytes & Hb). by destruct (Hbad bytes).
  - destruct H as (_ & bytes & _ & _ & Hb & _). by destruct (Hbad bytes).
Qed.

Lemma main_invalid_audio_witness :
  (main (world_output ∅) (run_args "music") sample_files).1 = 1 /\
  net (main (world_output ∅) (run_args "locked.mp3") sample_files).2 = [].
Proof.
  split.
  - apply (main_invalid_audio (world_output ∅) (run_args "music") sample_files).
    intros bytes H. discriminate H.
  - apply (main_invalid_audio (world_output ∅) (run_args "locked.mp3") sample_files).
    intros bytes H. discriminate H.
Defined.

(** X23. A dry run changes no file and makes no outbound call, and it ends
    with status 0 only if the [--audio] path is a readable regular file. *)
Theorem main_dry_run_footprint w args (s : State) :
  dry_run args = true ->
  let r := main w args s in
  fs r.2 = fs s /\ net r.2 = net s /\
  (r.1 = 0 -> exists bytes, fs s !! audio args = Some (Regular bytes None)).
Proof.
  intros Hdry r. subst r.
  destruct (main_runs w args s) as (_ & [H | [H | H]]).
  - destruct H as (H1 & Hfs & Hnet). repeat split; [done..|].
    intros H0. rewrite H1 in H0. done.
  - destruct H as (_ & _ & Hfs & Hnet & Hb). done.
  - destruct H as (? & ? & Hd & _). congruence.
Qed.

Lemma main_dry_run_footprint_witness :
  fs (main offline dry_run_args sample_files).2 = fs sample_files /\
  net (main offline dry_run_args sample_files).2 = [].
Proof.
  destruct (main_dry_run_footprint offline dry_run_args sample_files eq_refl)
    as (Hfs & Hnet & _).
  by split.
Defined.

(** X24. Without a key nothing is attempted: when neither [--api_key] nor
    [MONSTER_API_KEY] gives a non-empty string, the run ends with status 1
    and its only effect is the line about the missing key on the error
    stream; nothing is printed on standard output and the audio file is not
    even looked at. *)
Theorem main_without_key w args (s : State) :
  (forall k, ~ key_given w args k) ->
  main w args s =
    (1, eprint "Error: MonsterAPI key not provided. Use --api_key or set MONSTER_API_KEY env var." s).
Proof.
  intros Hno. unfold main, main_body.
  pose proof (get_api_key_state w args s) as Hs.
  destruct (get_api_key w args s) as [[e|k] s0] eqn:E; simpl in Hs; subst s0.
  - erewrite bind_raise by exact E.
    by rewrite (get_api_key_raises w args s e) by (by rewrite E).
  - destruct (Hno k). apply (get_api_key_returns w args s). by rewrite E.
Qed.

Lemma main_without_key_witness :
  main offline
    {| audio := "a.mp3"; out := DEFAULT_OUT; api_key := Some ""; dry_run := false |}
    sample_files =
    (1, eprint "Error: MonsterAPI key not provided. Use --api_key or set MONSTER_API_KEY env var."
          sample_files).
Proof.
  apply main_without_key.
  intros k [Hk [H | [_ H]]]; simpl in H; [congruence | discriminate H].
Defined.



End ImgGenMore.
